(** * chat-with-geogebra: the chat route and the GeoGebra command validator

    A shallow embedding of [src/app/api/chat/route.ts]: the [POST] handler
    (request parsing, provider routing, credential check, adapter selection,
    stream annotation) and the [GeoGebraValidator] class (command
    extraction and validation), followed by the properties proved of them.

    JavaScript strings are sequences of UTF-16 code units, so a string is a
    [list N]; a stream chunk is a [Uint8Array], so a chunk is a [list byte].
    Values that come out of [req.json()] are modelled by [jsval]. *)

From Stdlib Require Import List String Ascii NArith ZArith Bool Lia.
From Stdlib Require Import Strings.Byte.
From Stdlib Require Import Floats.PrimFloat.
Import ListNotations.

Set Implicit Arguments.
Set Warnings "-register-all".


(* ================================================================== *)
(** * Part I. The program *)
(* ================================================================== *)

(** ** JavaScript strings *)

Definition jsstring := list N.

Module Utf8.

Local Open Scope N_scope.

(** The WHATWG UTF-8 decoder, as run by [new TextDecoder().decode(chunk)]:
    malformed sequences decode to U+FFFD and the offending byte is read
    again as the start of a new sequence. *)
Record state := mkState
  { code_point : N; bytes_needed : N; lower : N; upper : N }.

Definition init : state := mkState 0 0 0x80 0xBF.

Definition lead (b : N) : list N * state :=
  if b <=? 0x7F then ([b], init)
  else if (0xC2 <=? b) && (b <=? 0xDF) then
    ([], mkState (N.land b 0x1F) 1 0x80 0xBF)
  else if (0xE0 <=? b) && (b <=? 0xEF) then
    ([], mkState (N.land b 0xF) 2
                 (if b =? 0xE0 then 0xA0 else 0x80)
                 (if b =? 0xED then 0x9F else 0xBF))
  else if (0xF0 <=? b) && (b <=? 0xF4) then
    ([], mkState (N.land b 0x7) 3
                 (if b =? 0xF0 then 0x90 else 0x80)
                 (if b =? 0xF4 then 0x8F else 0xBF))
  else ([0xFFFD], init).

Fixpoint decode_from (st : state) (bs : list byte) : list N :=
  match bs with
  | [] => if bytes_needed st =? 0 then [] else [0xFFFD]
  | x :: bs' =>
      let b := Byte.to_N x in
      if bytes_needed st =? 0 then
        let (out, st') := lead b in out ++ decode_from st' bs'
      else if (b <? lower st) || (upper st <? b) then
        let (out, st') := lead b in 0xFFFD :: out ++ decode_from st' bs'
      else
        let cp := N.lor (N.shiftl (code_point st) 6) (N.land b 0x3F) in
        if bytes_needed st =? 1 then cp :: decode_from init bs'
        else decode_from (mkState cp (bytes_needed st - 1) 0x80 0xBF) bs'
  end.

(** Code points (scalar values) of a byte sequence. *)
Definition decode (bs : list byte) : list N := decode_from init bs.

(** UTF-16 code units of a sequence of code points. *)
Definition units_of_code_point (cp : N) : list N :=
  if cp <? 0x10000 then [cp]
  else [0xD800 + N.shiftr (cp - 0x10000) 10;
        0xDC00 + N.land (cp - 0x10000) 0x3FF].

Definition to_units (cps : list N) : jsstring :=
  flat_map units_of_code_point cps.

Definition isHighSurrogate (c : N) : bool := (0xD800 <=? c) && (c <=? 0xDBFF).
Definition isLowSurrogate (c : N) : bool := (0xDC00 <=? c) && (c <=? 0xDFFF).

(** Scalar values of a JavaScript string: surrogate pairs are combined,
    lone surrogates become U+FFFD. *)
Fixpoint scalars (s : jsstring) : list N :=
  match s with
  | [] => []
  | c :: s' =>
      if isHighSurrogate c then
        match s' with
        | d :: s'' =>
            if isLowSurrogate d
            then (0x10000 + (c - 0xD800) * 0x400 + (d - 0xDC00)) :: scalars s''
            else 0xFFFD :: scalars s'
        | [] => [0xFFFD]
        end
      else if isLowSurrogate c then 0xFFFD :: scalars s'
      else c :: scalars s'
  end.

Definition byte_of (n : N) : byte :=
  match Byte.of_N n with Some b => b | None => x00 end.

Definition encode_scalar (cp : N) : list byte :=
  if cp <=? 0x7F then [byte_of cp]
  else if cp <=? 0x7FF then
    [byte_of (0xC0 + N.shiftr cp 6); byte_of (0x80 + N.land cp 0x3F)]
  else if cp <=? 0xFFFF then
    [byte_of (0xE0 + N.shiftr cp 12);
     byte_of (0x80 + N.land (N.shiftr cp 6) 0x3F);
     byte_of (0x80 + N.land cp 0x3F)]
  else
    [byte_of (0xF0 + N.shiftr cp 18);
     byte_of (0x80 + N.land (N.shiftr cp 12) 0x3F);
     byte_of (0x80 + N.land (N.shiftr cp 6) 0x3F);
     byte_of (0x80 + N.land cp 0x3F)].

End Utf8.

(** [new TextDecoder().decode(chunk)]: UTF-8, not fatal, and a leading
    byte order mark is dropped. *)
Definition TextDecoder_decode (chunk : list byte) : jsstring :=
  Utf8.to_units
    (match Utf8.decode chunk with
     | 0xFEFF :: cps => cps
     | cps => cps
     end)%N.

(** [new TextEncoder().encode(s)]. *)
Definition TextEncoder_encode (s : jsstring) : list byte :=
  flat_map Utf8.encode_scalar (Utf8.scalars s).

(** A string literal of the source file (which is UTF-8 text). *)
Definition js (literal : string) : jsstring :=
  Utf8.to_units (Utf8.decode (list_byte_of_string literal)).

Arguments js literal%_string.

Fixpoint jsstring_eqb (a b : jsstring) : bool :=
  match a, b with
  | [], [] => true
  | x :: a', y :: b' => (x =? y)%N && jsstring_eqb a' b'
  | _, _ => false
  end.

(** [s.startsWith(prefix)]. *)
Fixpoint startsWith (prefix s : jsstring) : bool :=
  match prefix, s with
  | [], _ => true
  | p :: prefix', c :: s' => (p =? c)%N && startsWith prefix' s'
  | _ :: _, [] => false
  end.

(** White space as [String.prototype.trim] and the regular expression
    class [\s] understand it: WhiteSpace and LineTerminator. *)
Definition isWhiteSpace (c : N) : bool :=
  ((c =? 0x09) || (c =? 0x0A) || (c =? 0x0B) || (c =? 0x0C) || (c =? 0x0D)
   || (c =? 0x20) || (c =? 0xA0) || (c =? 0x1680)
   || ((0x2000 <=? c) && (c <=? 0x200A))
   || (c =? 0x2028) || (c =? 0x2029) || (c =? 0x202F) || (c =? 0x205F)
   || (c =? 0x3000) || (c =? 0xFEFF))%N.

Fixpoint trimStart (s : jsstring) : jsstring :=
  match s with
  | c :: s' => if isWhiteSpace c then trimStart s' else s
  | [] => []
  end.

Definition trimEnd (s : jsstring) : jsstring := rev (trimStart (rev s)).

Definition trim (s : jsstring) : jsstring := trimEnd (trimStart s).

(** [s.split(sep)] for a separator that matches exactly one code unit
    (a one-character string or a character class). *)
Fixpoint split (sep : N -> bool) (s : jsstring) : list jsstring :=
  match s with
  | [] => [[]]
  | c :: s' =>
      if sep c then [] :: split sep s'
      else match split sep s' with
           | piece :: pieces => (c :: piece) :: pieces
           | [] => [[c]]
           end
  end.

(** [parts.join(sep)]. *)
Fixpoint join (sep : jsstring) (parts : list jsstring) : jsstring :=
  match parts with
  | [] => []
  | [p] => p
  | p :: rest => p ++ sep ++ join sep rest
  end.

(** If [s] starts with [prefix], what follows it. *)
Fixpoint stripPrefix (prefix s : jsstring) : option jsstring :=
  match prefix, s with
  | [], _ => Some s
  | p :: prefix', c :: s' =>
      if (p =? c)%N then stripPrefix prefix' s' else None
  | _ :: _, [] => None
  end.

(** The first occurrence of [needle] in [hay]: what precedes it and what
    follows it. *)
Fixpoint cut (needle hay : jsstring) : option (jsstring * jsstring) :=
  match stripPrefix needle hay with
  | Some after => Some ([], after)
  | None =>
      match hay with
      | [] => None
      | c :: hay' =>
          match cut needle hay' with
          | Some (before, after) => Some (c :: before, after)
          | None => None
          end
      end
  end.

(** [hay.includes(needle)]. *)
Definition includes (needle hay : jsstring) : bool :=
  match cut needle hay with Some _ => true | None => false end.

Definition LF : N := 0x0A.


(* ------------------------------------------------------------------ *)
(** ** GeoGebraValidator *)

Module GeoGebraValidator.

(** [VALID_COMMANDS]: the known command names, a [Set] of strings. *)
Definition VALID_COMMANDS : list jsstring :=
  Eval vm_compute in
  map js
    [ (* basic elements *)
      "Point"; "Vector"; "Segment"; "Line"; "Ray"; "Circle"; "Ellipse";
      "Polygon"; "RegularPolygon";
      (* functions and curves *)
      "Slope"; "Function"; "Curve"; "ParametricCurve"; "PolarCurve";
      (* animation and interaction *)
      "Slider"; "StartAnimation"; "SetAnimationSpeed";
      "SetConditionToShowObject"; "SetTrace"; "Locus";
      (* advanced *)
      "Sequence"; "List"; "If"; "Text"; "RunClickScript";
      (* other common commands *)
      "Intersect"; "Midpoint"; "Distance"; "Angle"; "Area"; "Perimeter";
      "Length"; "Reflect"; "Rotate"; "Translate"; "Dilate" ]%string.

(** [set.has(x)]. *)
Definition has (set : list jsstring) (x : jsstring) : bool :=
  existsb (jsstring_eqb x) set.

(** The character class of [/[\(\s,]/]. *)
Definition isNameDelimiter (c : N) : bool :=
  ((c =? 0x28) || isWhiteSpace c || (c =? 0x2C))%N.

(** The message prefix of an unknown command (the text before
    [${commandName}] in the template literal). *)
Definition unknownCommand : jsstring :=
  Eval vm_compute in js "未知的GeoGebra命令: ".

(** The result of [validateCommand]: [{ isValid, error? }]. *)
Record CommandResult := mkCommandResult
  { cmd_isValid : bool; cmd_error : option jsstring }.

(** [command.split(/[\(\s,]/)[0].trim()]. *)
Definition commandNameOf (command : jsstring) : jsstring :=
  trim (hd [] (split isNameDelimiter command)).

Definition validateCommand (command : jsstring) : CommandResult :=
  let commandName := commandNameOf command in
  if negb (has VALID_COMMANDS commandName) then
    mkCommandResult false (Some (unknownCommand ++ commandName))
  else mkCommandResult true None.

(** The result of [validateCommands]: [{ isValid, errors }]. *)
Record ValidationResult := mkValidationResult
  { isValid : bool; errors : list jsstring }.

(** A string is truthy when it is not empty. *)
Definition nonEmpty (s : jsstring) : bool := negb (List.length s =? 0)%nat.

(** The [for ... of] loop of [validateCommands], pushing onto [errors]. *)
Fixpoint collectErrors (commands errors : list jsstring) : list jsstring :=
  match commands with
  | [] => errors
  | command :: rest =>
      let result := validateCommand command in
      match cmd_error result with
      | Some e =>
          if negb (cmd_isValid result) && nonEmpty e
          then collectErrors rest (errors ++ [e])
          else collectErrors rest errors
      | None => collectErrors rest errors
      end
  end.

Definition validateCommands (commands : list jsstring) : ValidationResult :=
  let errors := collectErrors commands [] in
  mkValidationResult (List.length errors =? 0)%nat errors.

(** The regular expression [/```geogebra\n([\s\S]*?)```/g]: its literal
    opening part and its literal closing part. *)
Definition fenceOpen : jsstring := Eval vm_compute in js "```geogebra" ++ [LF].
Definition fenceClose : jsstring := Eval vm_compute in js "```".

(** One [regex.exec(text)] seen from [lastIndex]: [rest] is the text from
    [lastIndex] on; the result is the capture group [match[1]] and the
    text from the new [lastIndex] on.  The leftmost match starts at the
    first opening fence, and the lazy group ends at the first closing
    fence after it; when that opening fence is never closed no later one
    is either, so the expression does not match at all. *)
Definition exec (rest : jsstring) : option (jsstring * jsstring) :=
  match cut fenceOpen rest with
  | None => None
  | Some (_, afterOpen) => cut fenceClose afterOpen
  end.

(** [commandBlock.split('\n').map(line => line.trim())
                 .filter(line => line.length > 0)]. *)
Definition commandLines (commandBlock : jsstring) : list jsstring :=
  filter (fun line => (0 <? List.length line)%nat)
         (map trim (split (N.eqb LF) commandBlock)).

(** The [while] loop of [extractCommands].  Every match consumes at least
    one code unit, so the loop runs at most [length text] times. *)
Fixpoint extractLoop (fuel : nat) (rest : jsstring) (commands : list jsstring)
  : list jsstring :=
  match fuel with
  | O => commands
  | S fuel' =>
      match exec rest with
      | None => commands
      | Some (commandBlock, rest') =>
          extractLoop fuel' rest' (commands ++ commandLines commandBlock)
      end
  end.

Definition extractCommands (text : jsstring) : list jsstring :=
  extractLoop (List.length text) text [].

End GeoGebraValidator.

(* ------------------------------------------------------------------ *)
(** ** The stream annotator ([transformStream]) *)

Definition chunk := list byte.

(** The template literal of the warning. *)
Definition warningOf (errors : list jsstring) : jsstring :=
  [LF; LF] ++ js "⚠️ 警告：发现以下无效的GeoGebra命令：" ++ [LF]
  ++ join [LF] errors
  ++ [LF] ++ js "请检查命令是否正确。".

(** [transform(chunk, controller)]: the chunks it enqueues, in order. *)
Definition transform (c : chunk) : list chunk :=
  let text := TextDecoder_decode c in
  let commands := GeoGebraValidator.extractCommands text in
  let warnings :=
    if (0 <? List.length commands)%nat then
      let validation := GeoGebraValidator.validateCommands commands in
      if negb (GeoGebraValidator.isValid validation)
      then [TextEncoder_encode (warningOf (GeoGebraValidator.errors validation))]
      else []
    else [] in
  warnings ++ [c].

(** [body.pipeThrough(transformStream)]: chunks are transformed one by one,
    in order, with no state kept between them. *)
Definition pipeThrough (body : list chunk) : list chunk :=
  flat_map transform body.

(* ------------------------------------------------------------------ *)
(** ** JavaScript values of a parsed request body *)

(** What [JSON.parse] can produce, plus [undefined] for what is missing.
    An object is the list of its own properties; a property is read at its
    first entry (a parsed object has each key once). *)
Inductive jsval : Type :=
| Undefined
| Null
| Bool (b : bool)
| Num (x : float)
| Str (s : jsstring)
| Arr (items : list jsval)
| Obj (fields : list (jsstring * jsval)).

(** ToBoolean. *)
Definition truthy (v : jsval) : bool :=
  match v with
  | Undefined | Null => false
  | Bool b => b
  | Num x => negb (PrimFloat.is_zero x || PrimFloat.is_nan x)
  | Str s => negb (List.length s =? 0)%nat
  | Arr _ | Obj _ => true
  end.

(** [a || b]. *)
Definition orElse (a b : jsval) : jsval := if truthy a then a else b.

Infix "|||" := orElse (at level 50, left associativity).

(** [a === b].  Arrays and objects are equal only to themselves, and two
    values read at different places of one parsed body are never the same
    array or object. *)
Definition strictEq (a b : jsval) : bool :=
  match a, b with
  | Undefined, Undefined => true
  | Null, Null => true
  | Bool x, Bool y => Bool.eqb x y
  | Num x, Num y => PrimFloat.eqb x y
  | Str s, Str t => jsstring_eqb s t
  | _, _ => false
  end.

Fixpoint lookup (k : jsstring) (fields : list (jsstring * jsval)) : jsval :=
  match fields with
  | [] => Undefined
  | (k', v) :: rest => if jsstring_eqb k k' then v else lookup k rest
  end.

(** [v.name] for the property names the handler reads as data ([messages],
    [configSettings], [modelType], [systemPrompt], [customModels], [name],
    [apiConfig], [domain], [path], [key], [provider]): none of them is a
    property of a string, number, boolean or array, nor of
    [Object.prototype].  Applies to a value that is neither [undefined] nor
    [null]; see [readable] and [optGet]. *)
Definition get (v : jsval) (name : string) : jsval :=
  match v with
  | Obj fields => lookup (js name) fields
  | _ => Undefined
  end.

Definition nullish (v : jsval) : bool :=
  match v with Undefined | Null => true | _ => false end.

(** [v?.name]. *)
Definition optGet (v : jsval) (name : string) : jsval :=
  if nullish v then Undefined else get v name.

(** ToString, which is also how a value becomes a property key.  The
    digits of a number are the engine's business ([Number::toString]). *)
Fixpoint toString (Number_toString : float -> jsstring) (v : jsval) : jsstring :=
  match v with
  | Undefined => js "undefined"
  | Null => js "null"
  | Bool true => js "true"
  | Bool false => js "false"
  | Num x => Number_toString x
  | Str s => s
  | Arr items =>
      join (js ",")
           (map (fun item => if nullish item then []
                             else toString Number_toString item) items)
  | Obj _ => js "[object Object]"
  end.

(* ------------------------------------------------------------------ *)
(** ** The collaborators of the handler *)

(** [process.env]. *)
Definition Env := list (string * jsstring).

Fixpoint getenv (env : Env) (name : string) : jsval :=
  match env with
  | [] => Undefined
  | (n, v) :: rest => if String.eqb name n then Str v else getenv rest name
  end.

(** The three provider factories of the AI SDK. *)
Inductive adapter := OpenAI | Anthropic | DeepSeek.

(** What a factory is called with: [createX({ apiKey, baseURL })]. *)
Record provider := mkProvider
  { kind : adapter; apiKey : jsval; baseURL : jsval }.

(** Everything outside the repository that the handler calls. *)
Record Runtime := mkRuntime
  { (** [Number::toString] of the engine *)
    Number_toString : float -> jsstring;
    (** whether [createX({ apiKey, baseURL })] throws *)
    createThrows : provider -> bool;
    (** whether [the_model(modelType)] throws *)
    modelThrows : provider -> jsval -> bool;
    (** [streamText({ model, system, messages })] followed by
        [toDataStreamResponse]: the chunks of [response.body], or [None]
        when one of them throws *)
    streamText : provider -> jsval -> jsval -> jsval -> option (list chunk) }.

(** The calls made to the SDK, in order. *)
Inductive call :=
| Create (p : provider)
| Model (p : provider) (modelType : jsval)
| StreamText (p : provider) (modelType system messages : jsval).

(** What the handler answers: [new Response(JSON.stringify({ error }),
    { status, headers: { "Content-Type": "application/json" } })], or the
    streamed body (status 200, the headers of the SDK's response). *)
Inductive Response :=
| JsonError (status : N) (error : jsstring)
| Streamed (body : list chunk).

(** The request as [await req.json()] sees it. *)
Inductive Request :=
| Unparsable
| Json (body : jsval).

(* ------------------------------------------------------------------ *)
(** ** Control flow: exceptions, early [return], and the calls made *)

Inductive completion (A : Type) : Type :=
| Normal (a : A)
| Throw
| Return (r : Response).

Arguments Normal {A} a.
Arguments Throw {A}.
Arguments Return {A} r.

Definition M (A : Type) : Type := list call * completion A.

Definition ret {A} (a : A) : M A := ([], Normal a).
Definition throw {A} : M A := ([], Throw).
Definition respond {A} (r : Response) : M A := ([], Return r).
Definition calling (c : call) : M unit := ([c], Normal tt).

Definition bind {A B} (m : M A) (k : A -> M B) : M B :=
  match m with
  | (cs, Normal a) => let (cs', r) := k a in (cs ++ cs', r)
  | (cs, Throw) => (cs, Throw)
  | (cs, Return r) => (cs, Return r)
  end.

Notation "x <- m ;; k" := (bind m (fun x => k))
  (at level 61, m at next level, right associativity).
Notation "m ;;; k" := (bind m (fun _ => k))
  (at level 61, right associativity).

(** [try { m } catch (error) { handler }]. *)
Definition tryCatch {A} (m handler : M A) : M A :=
  match m with
  | (cs, Throw) => let (cs', r) := handler in (cs ++ cs', r)
  | other => other
  end.

(** Reading a property of [undefined] or [null] throws a TypeError. *)
Definition readable (v : jsval) : M unit :=
  if nullish v then throw else ret tt.

(* ------------------------------------------------------------------ *)
(** ** The handler [POST] *)

(** [logger.api] and [logger.error] write constants and values that are
    already computed; only the evaluation of their arguments is modelled
    (it can throw at [messages.length]). *)

Definition defaultSystemPrompt : jsstring :=
  js "你是一个专注于数学和GeoGebra的助手。帮助用户理解数学概念并使用GeoGebra进行可视化。请确保只使用有效的GeoGebra命令。".

Definition OPENROUTER_API_KEY_PLACEHOLDER : jsstring :=
  js "OPENROUTER_API_KEY_PLACEHOLDER".

(** The error texts of the handler. *)
Definition errOpenRouterUnset : jsstring :=
  js "未设置OPENROUTER_API_KEY环境变量。请在Vercel项目设置中添加此环境变量，或在设置页面配置自定义API密钥。".
Definition errMissingOpenRouterKey : jsstring :=
  js "缺少OpenRouter API密钥。请在Vercel项目设置中添加OPENROUTER_API_KEY环境变量，或在设置页面配置自定义API密钥。".
Definition errMissingKey : jsstring :=
  js "需要API密钥，请在设置中配置对应模型的API密钥".
Definition errInit : jsstring :=
  js "初始化模型失败，请检查API密钥和模型配置".
Definition errStream : jsstring :=
  js "创建聊天流失败，请检查网络连接".
Definition errRequest : jsstring :=
  js "处理请求时发生错误".

(** [await req.json()]. *)
Definition req_json (req : Request) : M jsval :=
  match req with
  | Unparsable => throw
  | Json body => ret body
  end.

(** The callback of [find] reads [model.name]; [find] returns the first
    element for which it answers true, or [undefined]. *)
Fixpoint Array_find (modelType : jsval) (models : list jsval) : M jsval :=
  match models with
  | [] => ret Undefined
  | model :: rest =>
      readable model ;;;
      if strictEq (get model "name") modelType then ret model
      else Array_find modelType rest
  end.

(** [configSettings?.customModels?.find(model => model.name === modelType)].
    A parsed value that is not an array has no callable [find]. *)
Definition findCustomModel (configSettings modelType : jsval) : M jsval :=
  match optGet configSettings "customModels" with
  | Undefined | Null => ret Undefined
  | Arr models => Array_find modelType models
  | _ => throw
  end.

Record ApiConfig := mkApiConfig { domain : jsval; path : jsval; key : jsval }.

(** The branch [if (customModel)] of the configuration lookup. *)
Definition customApiConfig (env : Env) (customModel : jsval) : M ApiConfig :=
  let apiConfig := get customModel "apiConfig" in
  let domain := optGet apiConfig "domain" ||| Str (js "https://api.openai.com") in
  let path := optGet apiConfig "path" ||| Str (js "/v1/chat/completions") in
  readable apiConfig ;;;
  let key := get apiConfig "key" ||| Str (js "") in
  if strictEq key (Str OPENROUTER_API_KEY_PLACEHOLDER) then
    let key := getenv env "OPENROUTER_API_KEY" ||| Str (js "") in
    if negb (truthy (getenv env "OPENROUTER_API_KEY")) then
      respond (JsonError 400 errOpenRouterUnset)
    else ret (mkApiConfig domain path key)
  else ret (mkApiConfig domain path key).

(** [builtInConfigs]. *)
Definition builtInConfigs (env : Env) : list (jsstring * ApiConfig) :=
  [ (js "gpt-4o",
     mkApiConfig (Str (js "https://api.openai.com"))
                 (Str (js "/v1/chat/completions"))
                 (getenv env "OPENAI_API_KEY" ||| Str (js "")));
    (js "claude-3-opus",
     mkApiConfig (Str (js "https://api.anthropic.com"))
                 (Str (js "/v1/messages"))
                 (getenv env "ANTHROPIC_API_KEY" ||| Str (js "")));
    (js "deepseek-chat",
     mkApiConfig (Str (js "https://api.deepseek.com"))
                 (Str (js "/v1/chat/completions"))
                 (getenv env "DEEPSEEK_API_KEY" ||| Str (js ""))) ].

Fixpoint ownProperty (k : jsstring) (table : list (jsstring * ApiConfig))
  : option ApiConfig :=
  match table with
  | [] => None
  | (k', c) :: rest => if jsstring_eqb k k' then Some c else ownProperty k rest
  end.

(** [builtInConfigs] is an object literal, so it also answers to the
    property names of [Object.prototype]. *)
Definition objectPrototypeKeys : list jsstring :=
  map js
    [ "constructor"; "__defineGetter__"; "__defineSetter__"; "hasOwnProperty";
      "__lookupGetter__"; "__lookupSetter__"; "isPrototypeOf";
      "propertyIsEnumerable"; "toString"; "valueOf"; "__proto__";
      "toLocaleString" ]%string.

(** A member of [Object.prototype] (a function, or the prototype itself)
    is truthy and has no property [domain], [path] or [key]. *)
Definition inheritedMember : ApiConfig := mkApiConfig Undefined Undefined Undefined.

(** [builtInConfigs[modelType] || builtInConfigs["gpt-4o"]]. *)
Definition builtInApiConfig (rt : Runtime) (env : Env) (modelType : jsval)
  : ApiConfig :=
  let k := toString (Number_toString rt) modelType in
  match ownProperty k (builtInConfigs env) with
  | Some c => c
  | None =>
      if existsb (jsstring_eqb k) objectPrototypeKeys then inheritedMember
      else match ownProperty (js "gpt-4o") (builtInConfigs env) with
           | Some c => c
           | None => inheritedMember
           end
  end.

(** The configuration lookup: [if (customModel) { ... } else { ... }]. *)
Definition resolveApiConfig (rt : Runtime) (env : Env)
           (customModel modelType : jsval) : M ApiConfig :=
  if truthy customModel then customApiConfig env customModel
  else ret (builtInApiConfig rt env modelType).

(** [if (!apiConfig.key) return ...]. *)
Definition checkKey (apiConfig : ApiConfig) (modelType : jsval) : M unit :=
  if negb (truthy (key apiConfig)) then
    respond (JsonError 400
               (if strictEq modelType (Str (js "deepseek-free"))
                then errMissingOpenRouterKey else errMissingKey))
  else ret tt.

(** Which factory the first [try] block calls; [None] when the choice
    itself throws ([modelType.startsWith] is not a function). *)
Definition selectAdapter (customModel modelType : jsval) : option adapter :=
  if truthy customModel then
    if strictEq (get customModel "provider") (Str (js "anthropic")) then Some Anthropic
    else if strictEq (get customModel "provider") (Str (js "deepseek")) then Some DeepSeek
    else Some OpenAI
  else
    match modelType with
    | Str s =>
        if startsWith (js "claude") s then Some Anthropic
        else if startsWith (js "deepseek") s then Some DeepSeek
        else Some OpenAI
    | _ => None
    end.

(** The first [try] block. *)
Definition createModel (rt : Runtime) (customModel modelType : jsval)
           (apiConfig : ApiConfig) : M provider :=
  match selectAdapter customModel modelType with
  | None => throw
  | Some a =>
      let the_model := mkProvider a (key apiConfig) (domain apiConfig) in
      calling (Create the_model) ;;;
      if createThrows rt the_model then throw else ret the_model
  end.

(** The second [try] block. *)
Definition createStream (rt : Runtime) (the_model : provider)
           (modelType systemPrompt messages : jsval) : M Response :=
  calling (StreamText the_model modelType systemPrompt messages) ;;;
  match streamText rt the_model modelType systemPrompt messages with
  | None => throw
  | Some body => ret (Streamed (pipeThrough body))
  end.

(** What the first half of the handler has computed when the second half
    starts. *)
Record Resolved := mkResolved
  { messages : jsval;
    modelType : jsval;
    systemPrompt : jsval;
    customModel : jsval;
    apiConfig : ApiConfig }.

(** The first half of the outermost [try]: parsing, defaults, the custom
    model and the configuration lookup. *)
Definition route (rt : Runtime) (env : Env) (req : Request) : M Resolved :=
  parsed <- req_json req ;;
  readable parsed ;;;
  let messages := get parsed "messages" in
  let configSettings := get parsed "configSettings" in
  readable messages ;;;
  let modelType := optGet configSettings "modelType" ||| Str (js "gpt-4o") in
  let systemPrompt :=
    optGet configSettings "systemPrompt" ||| Str defaultSystemPrompt in
  customModel <- findCustomModel configSettings modelType ;;
  apiConfig <- resolveApiConfig rt env customModel modelType ;;
  ret (mkResolved messages modelType systemPrompt customModel apiConfig).

(** The second half: credential check, adapter, stream. *)
Definition serve (rt : Runtime) (r : Resolved) : M Response :=
  checkKey (apiConfig r) (modelType r) ;;;
  the_model <- tryCatch (createModel rt (customModel r) (modelType r) (apiConfig r))
                        (respond (JsonError 500 errInit)) ;;
  calling (Model the_model (modelType r)) ;;;
  (if modelThrows rt the_model (modelType r) then throw else ret tt) ;;;
  tryCatch (createStream rt the_model (modelType r) (systemPrompt r) (messages r))
           (respond (JsonError 500 errStream)).

(** The body of the outermost [try]. *)
Definition handle (rt : Runtime) (env : Env) (req : Request) : M Response :=
  r <- route rt env req ;; serve rt r.

(** [POST]: the response, and the calls made to the SDK on the way.  The
    outermost [catch] answers every exception with the same error. *)
Definition POST (rt : Runtime) (env : Env) (req : Request)
  : Response * list call :=
  match handle rt env req with
  | (calls, Normal r) => (r, calls)
  | (calls, Return r) => (r, calls)
  | (calls, Throw) => (JsonError 500 errRequest, calls)
  end.

Definition statusOf (r : Response) : N :=
  match r with
  | JsonError status _ => status
  | Streamed _ => 200
  end.

(* ------------------------------------------------------------------ *)
(** ** Sample collaborators and requests *)

Module Sample.

(** An object literal with the given properties. *)
Definition object (properties : list (string * jsval)) : jsval :=
  Obj (map (fun kv => (js (fst kv), snd kv)) properties).

Definition text (s : string) : jsval := Str (js s).

(** A chunk: the UTF-8 bytes of a text. *)
Definition bytes (s : string) : chunk := list_byte_of_string s.

(** A runtime in which nothing throws and the model answers two chunks,
    the second with one unknown and one known command. *)
Definition runtime : Runtime :=
  mkRuntime (fun _ => js "0") (fun _ => false) (fun _ _ => false)
    (fun _ _ _ _ =>
       Some [ bytes "Here is the construction:";
              list_byte_of_string "```geogebra" ++ [x0a]
              ++ bytes "Bar(1)" ++ [x0a] ++ bytes "Point(1,2)" ++ [x0a]
              ++ bytes "```" ]).

Definition userMessages : jsval :=
  Arr [object [("role", text "user"); ("content", text "draw a circle")]]%string.

(** A custom model named [x] whose key is the placeholder. *)
Definition placeholderModel (pathValue : jsval) : jsval :=
  object [("name", text "x"); ("provider", text "anthropic");
          ("modelType", text "x");
          ("apiConfig",
           object [("domain", text "https://openrouter.ai");
                   ("path", pathValue);
                   ("key", Str OPENROUTER_API_KEY_PLACEHOLDER)])]%string.

Definition placeholderRequest (pathValue : jsval) : jsval :=
  object [("messages", userMessages);
          ("configSettings",
           object [("modelType", text "x");
                   ("systemPrompt", text "Be brief.");
                   ("customModels", Arr [placeholderModel pathValue])])]%string.

(** A custom model with no [apiConfig]. *)
Definition bareRequest : jsval :=
  object [("messages", userMessages);
          ("configSettings",
           object [("modelType", text "y");
                   ("customModels",
                    Arr [object [("name", text "y"); ("provider", text "openai")]])])]%string.

Definition withModelType (identifier : string) : jsval :=
  object [("messages", userMessages);
          ("configSettings", object [("modelType", text identifier)])]%string.

(** A text with one block of four lines, two of them blank. *)
Definition blockLines : list jsstring :=
  [js "  A = (1,2) "; js ""; js "Circle(A, 3)"; js "  "].

Definition fencedText : jsstring :=
  js "Try this: " ++ GeoGebraValidator.fenceOpen ++ join [LF] blockLines
  ++ GeoGebraValidator.fenceClose ++ js " Done.".

(** A chunk whose only command is known, and one whose only command is
    not. *)
Definition pointChunk : chunk :=
  bytes "```geogebra" ++ [x0a] ++ bytes "Point(1,2)" ++ [x0a] ++ bytes "```".

Definition barChunk : chunk :=
  bytes "```geogebra" ++ [x0a] ++ bytes "Bar(1)" ++ [x0a] ++ bytes "```".

End Sample.

(* ------------------------------------------------------------------ *)
(** ** The configuration dialog ([ConfigDialog]) *)

(** The state of the component and its event handlers.  A handler reads the
    state of the render it was created in and asks for a new state; the
    calls that leave the component ([updateConfig], [onSave], the timer
    that closes the dialog) are listed in order.  The values are those of
    the TypeScript types [ApiConfig], [ModelConfig] and [ConfigSettings]. *)
Module Dialog.

Record ApiConfig := mkApiConfig
  { domain : jsstring; path : jsstring; key : jsstring }.

(** [ModelConfig]; its [modelType] is [model_type] here, [modelType] being
    the field of [ConfigSettings]. *)
Record ModelConfig := mkModelConfig
  { name : jsstring; provider : jsstring; model_type : jsstring;
    apiConfig : ApiConfig }.

Record ConfigSettings := mkConfigSettings
  { modelType : jsstring; systemPrompt : jsstring;
    customModels : list ModelConfig }.

(** The [useState] variables. *)
Record State := mkState
  { localConfig : ConfigSettings;
    error : option jsstring;
    saveSuccess : bool;
    activeTab : jsstring;
    showModelForm : bool;
    newModel : ModelConfig;
    editingModelIndex : option nat }.

Inductive effect :=
| UpdateConfig (config : ConfigSettings)
| OnSave
| CloseLater.

(** The model of an empty form. *)
Definition blankModel : ModelConfig :=
  mkModelConfig (js "") (js "openai") (js "")
    (mkApiConfig (js "https://api.openai.com") (js "/v1/chat/completions") (js "")).

(** [providerPresets]. *)
Definition providerPresets : list (jsstring * (jsstring * jsstring)) :=
  [ (js "openai", (js "https://api.openai.com", js "/v1/chat/completions"));
    (js "anthropic", (js "https://api.anthropic.com", js "/v1/messages"));
    (js "deepseek", (js "https://api.deepseek.com", js "/v1/chat/completions"));
    (js "openrouter", (js "https://openrouter.ai", js "/api/v1/chat/completions")) ].

Fixpoint preset (value : jsstring) (table : list (jsstring * (jsstring * jsstring)))
  : option (jsstring * jsstring) :=
  match table with
  | [] => None
  | (k, p) :: rest => if jsstring_eqb value k then Some p else preset value rest
  end.

(** [handleProviderChange(value)].  The provider select offers the four
    keys of [providerPresets]; for any other value there is no preset to
    read a domain from, and no state results ([None]). *)
Definition handleProviderChange (value : jsstring) (s : State) : option State :=
  match preset value providerPresets with
  | None => None
  | Some (presetDomain, presetPath) =>
      Some (mkState (localConfig s) (error s) (saveSuccess s) (activeTab s)
              (showModelForm s)
              (mkModelConfig (name (newModel s)) value (model_type (newModel s))
                 (mkApiConfig presetDomain presetPath (js "")))
              (editingModelIndex s))
  end.

(** The custom model that is selected: [customModels.find(model =>
    model.name === localConfig.modelType)]. *)
Definition selectedModel (config : ConfigSettings) : option ModelConfig :=
  find (fun model => jsstring_eqb (name model) (modelType config))
       (customModels config).

(** The test for the default free model. *)
Definition isFreePreset (m : ModelConfig) : bool :=
  jsstring_eqb (name m) (js "deepseek-free")
  && jsstring_eqb (model_type m) (js "deepseek-r1:free")
  && jsstring_eqb (provider m) (js "openai")
  && jsstring_eqb (domain (apiConfig m)) (js "https://openrouter.ai").

(** The callback of [customModels.map] in [handleSave]. *)
Definition withPlaceholder (m : ModelConfig) : ModelConfig :=
  if jsstring_eqb (name m) (js "deepseek-free")
  then mkModelConfig (name m) (provider m) (model_type m)
         (mkApiConfig (domain (apiConfig m)) (path (apiConfig m))
                      OPENROUTER_API_KEY_PLACEHOLDER)
  else m.

(** The end of a successful save: [updateConfig(config)],
    [setSaveSuccess(true)], [onSave] when it is given, the timer, and
    [setError(null)]. *)
Definition save (onSave : bool) (s : State) (config : ConfigSettings)
  : State * list effect :=
  (mkState (localConfig s) None true (activeTab s) (showModelForm s)
           (newModel s) (editingModelIndex s),
   UpdateConfig config :: (if onSave then [OnSave] else []) ++ [CloseLater]).

(** [handleSave()]; [onSave] tells whether the [onSave] property is
    given. *)
Definition handleSave (onSave : bool) (s : State) : State * list effect :=
  match selectedModel (localConfig s) with
  | Some customModel =>
      if (List.length (key (apiConfig customModel)) =? 0)%nat then
        if isFreePreset customModel then
          save onSave s
               (mkConfigSettings (modelType (localConfig s))
                                 (systemPrompt (localConfig s))
                                 (map withPlaceholder (customModels (localConfig s))))
        else
          (mkState (localConfig s)
                   (Some (provider customModel ++ js " API Key 是必填项"))
                   (saveSuccess s) (js "model") (showModelForm s)
                   (newModel s) (editingModelIndex s),
           [])
      else save onSave s (localConfig s)
  | None => save onSave s (localConfig s)
  end.

(** [models.splice(index, 1, model)] on a copy of [models]: the element at
    [index] is replaced; from [models.length] on, [model] is appended. *)
Definition splice1 (index : nat) (model : ModelConfig) (models : list ModelConfig)
  : list ModelConfig :=
  firstn index models ++ model :: skipn (S index) models.

(** The button that adds or updates a model. *)
Definition submitModel (s : State) : State :=
  let models := customModels (localConfig s) in
  let models' :=
    match editingModelIndex s with
    | Some index => splice1 index (newModel s) models
    | None => models ++ [newModel s]
    end in
  mkState (mkConfigSettings (modelType (localConfig s))
                            (systemPrompt (localConfig s)) models')
          (error s) (saveSuccess s) (activeTab s) false blankModel None.

(** [models.filter((_, i) => keep(i))], [i] counting from [from]. *)
Fixpoint filterIndex (keep : nat -> bool) (from : nat) (models : list ModelConfig)
  : list ModelConfig :=
  match models with
  | [] => []
  | m :: rest =>
      if keep from then m :: filterIndex keep (S from) rest
      else filterIndex keep (S from) rest
  end.

(** The buttons of the row [index] of the list of models; there is no row,
    and no button ([None]), from [customModels.length] on. *)
Definition selectModel (index : nat) (s : State) : option State :=
  match nth_error (customModels (localConfig s)) index with
  | None => None
  | Some model =>
      Some (mkState (mkConfigSettings (name model) (systemPrompt (localConfig s))
                                      (customModels (localConfig s)))
                    (error s) (saveSuccess s) (activeTab s) (showModelForm s)
                    (newModel s) (editingModelIndex s))
  end.

Definition editModel (index : nat) (s : State) : option State :=
  match nth_error (customModels (localConfig s)) index with
  | None => None
  | Some model =>
      Some (mkState (localConfig s) (error s) (saveSuccess s) (activeTab s)
                    true model (Some index))
  end.

Definition deleteModel (index : nat) (s : State) : option State :=
  match nth_error (customModels (localConfig s)) index with
  | None => None
  | Some model =>
      let models' :=
        filterIndex (fun i => negb (i =? index)%nat) 0
                    (customModels (localConfig s)) in
      Some (mkState
              (mkConfigSettings
                 (if jsstring_eqb (modelType (localConfig s)) (name model)
                  then js "gpt-4o" else modelType (localConfig s))
                 (systemPrompt (localConfig s)) models')
              (error s) (saveSuccess s) (activeTab s) (showModelForm s)
              (newModel s) (editingModelIndex s))
  end.

(** The button that opens and closes the form. *)
Definition toggleForm (s : State) : State :=
  mkState (localConfig s) (error s) (saveSuccess s) (activeTab s)
          (negb (showModelForm s))
          (if showModelForm s then blankModel else newModel s)
          (if showModelForm s then None else editingModelIndex s).

(** A stored configuration in which the selected custom model, if there is
    one, has a key. *)
Definition selectedHasKey (config : ConfigSettings) : Prop :=
  match selectedModel config with
  | Some model => key (apiConfig model) <> []
  | None => True
  end.

End Dialog.

(* ------------------------------------------------------------------ *)
(** ** More sample requests *)

Module Cases.

(** The answer of [Sample.runtime]. *)
Definition answer : list chunk :=
  [ Sample.bytes "Here is the construction:";
    list_byte_of_string "```geogebra" ++ [x0a]
    ++ Sample.bytes "Bar(1)" ++ [x0a] ++ Sample.bytes "Point(1,2)" ++ [x0a]
    ++ Sample.bytes "```" ].

(** An environment with the OpenAI key only. *)
Definition openaiOnly : Env := [("OPENAI_API_KEY"%string, js "sk-1")].

(** An environment with every key. *)
Definition everyKey : Env :=
  [("OPENAI_API_KEY", js "sk-1"); ("ANTHROPIC_API_KEY", js "sk-2");
   ("DEEPSEEK_API_KEY", js "sk-3"); ("OPENROUTER_API_KEY", js "sk-test")]%string.

(** A request with messages and nothing else. *)
Definition bare : jsval :=
  Sample.object [("messages", Sample.userMessages)]%string.

(** What the first half of the handler makes of [bare] under [openaiOnly]. *)
Definition bareResolved : Resolved :=
  mkResolved Sample.userMessages (Str (js "gpt-4o")) (Str defaultSystemPrompt)
             Undefined
             (mkApiConfig (Str (js "https://api.openai.com"))
                          (Str (js "/v1/chat/completions"))
                          (Str (js "sk-1"))).

(** A custom model with an [apiConfig] and an empty key. *)
Definition keylessModel : jsval :=
  Sample.object [("name", Sample.text "y"); ("provider", Sample.text "openai");
                 ("apiConfig",
                  Sample.object [("domain", Sample.text "https://example.org");
                                 ("key", Sample.text "")])]%string.

Definition keyless : jsval :=
  Sample.object [("messages", Sample.userMessages);
                 ("configSettings",
                  Sample.object [("modelType", Sample.text "y");
                                 ("customModels", Arr [keylessModel])])]%string.


(** Custom models that are a string. *)
Definition stringModels : jsval :=
  Sample.object [("messages", Sample.userMessages);
                 ("configSettings",
                  Sample.object [("modelType", Sample.text "y");
                                 ("customModels", Sample.text "none")])]%string.

End Cases.

(** Sample states of the dialog. *)
Module Forms.

Definition freeModel : Dialog.ModelConfig :=
  Dialog.mkModelConfig (js "deepseek-free") (js "openai") (js "deepseek-r1:free")
    (Dialog.mkApiConfig (js "https://openrouter.ai")
                        (js "/api/v1/chat/completions") (js "")).

Definition keylessModel : Dialog.ModelConfig :=
  Dialog.mkModelConfig (js "mine") (js "anthropic") (js "claude-3-opus")
    (Dialog.mkApiConfig (js "https://api.anthropic.com") (js "/v1/messages") (js "")).

Definition keyedModel : Dialog.ModelConfig :=
  Dialog.mkModelConfig (js "other") (js "openai") (js "gpt-4")
    (Dialog.mkApiConfig (js "https://api.openai.com")
                        (js "/v1/chat/completions") (js "sk-9")).

(** The dialog as it opens on a configuration. *)
Definition opened (config : Dialog.ConfigSettings) : Dialog.State :=
  Dialog.mkState config None false (js "model") false Dialog.blankModel None.

Definition models : list Dialog.ModelConfig := [freeModel; keylessModel; keyedModel].

Definition selecting (identifier : string) : Dialog.State :=
  opened (Dialog.mkConfigSettings (js identifier) (js "Be brief.") models).

End Forms.

(* ------------------------------------------------------------------ *)
(** ** Vocabulary of the properties *)

(** A command that [validateCommand] rejects. *)
Definition invalid (command : jsstring) : bool :=
  negb (GeoGebraValidator.cmd_isValid (GeoGebraValidator.validateCommand command)).

(** The error text of a rejected command. *)
Definition messageOf (command : jsstring) : jsstring :=
  GeoGebraValidator.unknownCommand ++ GeoGebraValidator.commandNameOf command.

(** [needle] occurs somewhere in [hay]. *)
Definition occurs (needle hay : jsstring) : Prop :=
  exists before after, hay = before ++ needle ++ after.

(** The occurrence of [needle] right after [before] is the first one: in
    [before ++ needle] the needle occurs only at the very end. *)
Definition firstAt (needle before : jsstring) : Prop :=
  forall b a, before ++ needle = b ++ needle ++ a -> a = [].

(** The text holds a closed geogebra block: an opening fence and, somewhere
    after it, a closing fence. *)
Definition closedBlock (text : jsstring) : Prop :=
  exists pre body post,
    text = pre ++ GeoGebraValidator.fenceOpen ++ body
           ++ GeoGebraValidator.fenceClose ++ post.

(** A line that is empty or all white space. *)
Definition blank (line : jsstring) : bool := forallb isWhiteSpace line.

Definition backtick : N := 0x60.

(** [configSettings] and the model identifier the handler works with (the
    requested one, or the default when none is given). *)
Definition configOf (body : jsval) : jsval := get body "configSettings".

Definition requestedModel (body : jsval) : jsval :=
  optGet (configOf body) "modelType" ||| Str (js "gpt-4o").

(** A request whose body does not parse, or has no message list. *)
Definition malformed (req : Request) : Prop :=
  req = Unparsable
  \/ exists body, req = Json body /\ nullish (get body "messages") = true.

(** The handler's [customModel] is the entry [model]. *)
Definition selects (body model : jsval) : Prop :=
  findCustomModel (configOf body) (requestedModel body) = ret model
  /\ truthy model = true.

(** A computation that calls nothing. *)
Definition silent {A} (m : M A) : Prop := fst m = [].

(** [mmap f m]: [m] with [f] applied to its value. *)
Definition mmap {A B} (f : A -> B) (m : M A) : M B :=
  match m with
  | (cs, Normal a) => (cs, Normal (f a))
  | (cs, Throw) => (cs, Throw)
  | (cs, Return r) => (cs, Return r)
  end.

(** Editing a parsed body: every property called [name] of an object gets
    [f] applied to its value, or is removed; every item of an array gets
    [f] applied. *)
Definition mapField (name : string) (f : jsval -> jsval) (v : jsval) : jsval :=
  match v with
  | Obj fields =>
      Obj (map (fun kv => if jsstring_eqb (js name) (fst kv)
                          then (fst kv, f (snd kv)) else kv) fields)
  | _ => v
  end.

Definition dropField (name : string) (v : jsval) : jsval :=
  match v with
  | Obj fields =>
      Obj (filter (fun kv => negb (jsstring_eqb (js name) (fst kv))) fields)
  | _ => v
  end.

Definition mapItems (f : jsval -> jsval) (v : jsval) : jsval :=
  match v with
  | Arr items => Arr (map f items)
  | _ => v
  end.

(** A custom model without the [path] of its [apiConfig], and a body
    without the [path] of any of its custom models.  Two bodies that are
    identical except for these paths are those with the same
    [forgetPaths]. *)
Definition forgetPath (model : jsval) : jsval :=
  mapField "apiConfig" (dropField "path") model.

Definition forgetPaths (body : jsval) : jsval :=
  mapField "configSettings" (mapField "customModels" (mapItems forgetPath)) body.

(** A resolved configuration with another [path]. *)
Definition withPath (pathValue : jsval) (c : ApiConfig) : ApiConfig :=
  mkApiConfig (domain c) pathValue (key c).

(** A body whose custom models have each been edited by [g]. *)
Definition editModels (g : jsval -> jsval) (body : jsval) : jsval :=
  mapField "configSettings" (mapField "customModels" (mapItems g)) body.

(** What the handler passes on of a request: the identifier, the system
    prompt and the messages. *)
Definition systemPromptOf (body : jsval) : jsval :=
  optGet (configOf body) "systemPrompt" ||| Str defaultSystemPrompt.

(** The factory that the [provider] field of a custom model stands for. *)
Definition adapterOfProvider (providerField : jsval) : adapter :=
  if strictEq providerField (Str (js "anthropic")) then Anthropic
  else if strictEq providerField (Str (js "deepseek")) then DeepSeek
  else OpenAI.

(** [small] is [big] with some elements left out, the order kept. *)
Inductive subsequence {A : Type} : list A -> list A -> Prop :=
| subsequence_nil : subsequence [] []
| subsequence_keep x small big :
    subsequence small big -> subsequence (x :: small) (x :: big)
| subsequence_skip x small big :
    subsequence small big -> subsequence small (x :: big).

(** A chunk with at least one invalid command. *)
Definition hasInvalid (c : chunk) : bool :=
  existsb invalid (GeoGebraValidator.extractCommands (TextDecoder_decode c)).

(** The text before and after the messages in a warning. *)
Definition warningHeader : jsstring :=
  [LF; LF] ++ js "⚠️ 警告：发现以下无效的GeoGebra命令：" ++ [LF].

Definition warningFooter : jsstring := [LF] ++ js "请检查命令是否正确。".

(** A command as [extractCommands] gives them: one line, not empty, with
    no white space at either end. *)
Definition tidy (command : jsstring) : Prop :=
  command <> []
  /\ trimStart command = command
  /\ trimEnd command = command
  /\ ~ In LF command.

(** The JSON value of a model and of a configuration of the dialog: the
    objects the dialog builds, property by property, as a request body
    carries them. *)
Definition jsonOfModel (m : Dialog.ModelConfig) : jsval :=
  Obj [ (js "name", Str (Dialog.name m));
        (js "provider", Str (Dialog.provider m));
        (js "modelType", Str (Dialog.model_type m));
        (js "apiConfig",
         Obj [ (js "domain", Str (Dialog.domain (Dialog.apiConfig m)));
               (js "path", Str (Dialog.path (Dialog.apiConfig m)));
               (js "key", Str (Dialog.key (Dialog.apiConfig m))) ]) ].

Definition jsonOfConfig (c : Dialog.ConfigSettings) : jsval :=
  Obj [ (js "modelType", Str (Dialog.modelType c));
        (js "systemPrompt", Str (Dialog.systemPrompt c));
        (js "customModels", Arr (map jsonOfModel (Dialog.customModels c))) ].

(** The body of a request with a message list and a configuration of the
    dialog as its [configSettings]. *)
Definition bodyOf (messageList : jsval) (c : Dialog.ConfigSettings) : jsval :=
  Obj [ (js "messages", messageList); (js "configSettings", jsonOfConfig c) ].

(* ================================================================== *)
(** * Part II. Properties *)
(* ================================================================== *)

(** ** Strings *)

Lemma jsstring_eqb_eq (a b : jsstring) : jsstring_eqb a b = true <-> a = b.
Proof.
  revert b; induction a as [|x a IH]; intros [|y b]; simpl; split;
    try discriminate; try reflexivity.
  - rewrite andb_true_iff, N.eqb_eq, IH. intros [-> ->]; reflexivity.
  - intros [= -> ->]. rewrite N.eqb_refl. apply IH. reflexivity.
Qed.

Lemma jsstring_eqb_refl (a : jsstring) : jsstring_eqb a a = true.
Proof. apply jsstring_eqb_eq; reflexivity. Qed.

Lemma jsstring_eqb_neq (a b : jsstring) : jsstring_eqb a b = false <-> a <> b.
Proof.
  rewrite <- jsstring_eqb_eq. destruct (jsstring_eqb a b); split;
    congruence.
Qed.

Lemma has_In (set : list jsstring) (x : jsstring) :
  GeoGebraValidator.has set x = true <-> In x set.
Proof.
  unfold GeoGebraValidator.has. rewrite existsb_exists. split.
  - intros (y & Hy & E). apply jsstring_eqb_eq in E. subst; assumption.
  - intros H. exists x. split; [assumption | apply jsstring_eqb_refl].
Qed.

Lemma trimStart_id (s : jsstring) :
  Forall (fun c => isWhiteSpace c = false) s -> trimStart s = s.
Proof. intros [|c s' Hc _]; simpl; [reflexivity | now rewrite Hc]. Qed.

Lemma trim_id (s : jsstring) :
  Forall (fun c => isWhiteSpace c = false) s -> trim s = s.
Proof.
  intros H. unfold trim, trimEnd. rewrite (trimStart_id H).
  rewrite trimStart_id by (apply Forall_rev; assumption).
  apply rev_involutive.
Qed.

(** The first piece of a split is the text before the first separator. *)
Lemma split_first (sep : N -> bool) (s : jsstring) :
  exists rest,
    s = hd [] (split sep s) ++ rest
    /\ Forall (fun c => sep c = false) (hd [] (split sep s))
    /\ (rest = [] \/ exists d rest', rest = d :: rest' /\ sep d = true).
Proof.
  induction s as [|c s (rest & E & F & R)]; simpl.
  - exists []. repeat split; auto.
  - destruct (sep c) eqn:Hc; simpl.
    + exists (c :: s). repeat split; auto. right. eauto.
    + destruct (split sep s) as [|piece pieces]; simpl in *.
      * exists rest. subst s. repeat split; auto.
      * exists rest. rewrite E at 1. repeat split; auto.
Qed.

Lemma delimiter_of_space (c : N) :
  GeoGebraValidator.isNameDelimiter c = false -> isWhiteSpace c = false.
Proof.
  unfold GeoGebraValidator.isNameDelimiter.
  rewrite !orb_false_iff. tauto.
Qed.

(* ------------------------------------------------------------------ *)
(** ** The command validator *)

Section Validator.

Import GeoGebraValidator.

(** The command name is the text before the first delimiter; trimming it
    changes nothing, since white space is a delimiter. *)
Lemma commandNameOf_spec (command : jsstring) :
  exists rest,
    command = commandNameOf command ++ rest
    /\ Forall (fun c => isNameDelimiter c = false) (commandNameOf command)
    /\ (rest = [] \/ exists d rest', rest = d :: rest' /\ isNameDelimiter d = true).
Proof.
  unfold commandNameOf.
  destruct (split_first isNameDelimiter command) as (rest & E & F & R).
  rewrite trim_id.
  - exists rest. auto.
  - eapply Forall_impl; [| exact F]. apply delimiter_of_space.
Qed.

Lemma validateCommand_known (command : jsstring) :
  In (commandNameOf command) VALID_COMMANDS ->
  validateCommand command = mkCommandResult true None.
Proof.
  intros H. apply has_In in H. unfold validateCommand. now rewrite H.
Qed.

Lemma validateCommand_unknown (command : jsstring) :
  ~ In (commandNameOf command) VALID_COMMANDS ->
  validateCommand command
  = mkCommandResult false (Some (unknownCommand ++ commandNameOf command)).
Proof.
  intros H. unfold validateCommand.
  destruct (has VALID_COMMANDS (commandNameOf command)) eqn:E.
  - apply has_In in E. contradiction.
  - reflexivity.
Qed.

Lemma validateCommand_cases (command : jsstring) :
  validateCommand command
  = if cmd_isValid (validateCommand command)
    then mkCommandResult true None
    else mkCommandResult false (Some (unknownCommand ++ commandNameOf command)).
Proof.
  unfold validateCommand.
  destruct (has VALID_COMMANDS (commandNameOf command)); reflexivity.
Qed.

Lemma collectErrors_spec (commands errors : list jsstring) :
  collectErrors commands errors
  = errors ++ map messageOf (filter invalid commands).
Proof.
  revert errors.
  induction commands as [|c cs IH]; intros errors; simpl.
  - now rewrite app_nil_r.
  - unfold invalid at 1. rewrite (validateCommand_cases c).
    destruct (cmd_isValid (validateCommand c)); simpl.
    + apply IH.
    + rewrite IH, <- app_assoc. reflexivity.
Qed.

Lemma validateCommands_errors (commands : list jsstring) :
  errors (validateCommands commands)
  = map messageOf (filter invalid commands).
Proof. unfold validateCommands; simpl. apply collectErrors_spec. Qed.

Lemma validateCommands_isValid (commands : list jsstring) :
  isValid (validateCommands commands) = forallb (fun c => negb (invalid c)) commands.
Proof.
  unfold validateCommands; simpl. rewrite collectErrors_spec; simpl.
  induction commands as [|c cs IH]; simpl; [reflexivity |].
  destruct (invalid c); simpl; [reflexivity | exact IH].
Qed.

(** C5 (as the code has it): the command name is the text before the
    first ['('], white space or [','] (trimming adds nothing); a name of
    the vocabulary, compared exactly and so case-sensitively, is valid
    with no error; any other name gives the error text
    ["未知的GeoGebra命令: " ++ name]; and validating [["Foo(1,2)"]] gives
    [{ isValid: false, errors: ["未知的GeoGebra命令: Foo"] }]. *)
Theorem validateCommand_name_and_message :
  (forall command, exists rest,
      command = commandNameOf command ++ rest
      /\ Forall (fun c => isNameDelimiter c = false) (commandNameOf command)
      /\ (rest = [] \/ exists d rest', rest = d :: rest' /\ isNameDelimiter d = true))
  /\ (forall c, isNameDelimiter c = true
                <-> c = 0x28%N \/ isWhiteSpace c = true \/ c = 0x2C%N)
  /\ (forall command, In (commandNameOf command) VALID_COMMANDS ->
                      validateCommand command = mkCommandResult true None)
  /\ (forall command, ~ In (commandNameOf command) VALID_COMMANDS ->
                      validateCommand command
                      = mkCommandResult false
                          (Some (js "未知的GeoGebra命令: " ++ commandNameOf command)))
  /\ cmd_isValid (validateCommand (js "Point(1,2)")) = true
  /\ cmd_isValid (validateCommand (js "point(1,2)")) = false
  /\ validateCommands [js "Foo(1,2)"]
     = mkValidationResult false [js "未知的GeoGebra命令: Foo"].
Proof.
  split; [exact commandNameOf_spec |].
  split.
  { intros c. unfold isNameDelimiter.
    rewrite !orb_true_iff, !N.eqb_eq. tauto. }
  split; [exact validateCommand_known |].
  split; [exact validateCommand_unknown |].
  repeat split; vm_compute; reflexivity.
Qed.

(** The clauses of C5 at concrete commands. *)
Lemma validateCommand_name_and_message_witness :
  validateCommand (js "Circle(A, 3)") = mkCommandResult true None
  /\ validateCommand (js "Foo(1,2)")
     = mkCommandResult false (Some (js "未知的GeoGebra命令: " ++ js "Foo")).
Proof.
  destruct validateCommand_name_and_message as (_ & _ & K & U & _).
  split.
  - apply K. apply has_In. vm_compute. reflexivity.
  - apply (U (js "Foo(1,2)")). intros H. apply has_In in H.
    vm_compute in H. discriminate H.
Defined.

(** C5 as the specification words it does not hold: the error text is
    not ["unknown command: Foo"]. *)
Lemma validateCommands_Foo_not_english :
  validateCommands [js "Foo(1,2)"]
  <> mkValidationResult false [js "unknown command: Foo"].
Proof. vm_compute. discriminate. Qed.

(** C6: [isValid] holds exactly when every command is valid, and [errors]
    holds the message of each invalid command, one per invalid command, in
    input order, repeated when a command is repeated. *)
Theorem validateCommands_spec (commands : list jsstring) :
  (isValid (validateCommands commands) = true
   <-> forall c, In c commands -> cmd_isValid (validateCommand c) = true)
  /\ errors (validateCommands commands)
     = map (fun c => unknownCommand ++ commandNameOf c)
           (filter (fun c => negb (cmd_isValid (validateCommand c))) commands)
  /\ List.length (errors (validateCommands commands))
     = List.length (filter (fun c => negb (cmd_isValid (validateCommand c))) commands)
  /\ (forall c, In c commands ->
                cmd_error (validateCommand c)
                = if cmd_isValid (validateCommand c) then None
                  else Some (unknownCommand ++ commandNameOf c)).
Proof.
  split; [| split; [| split]].
  - rewrite validateCommands_isValid, forallb_forall. unfold invalid.
    split; intros H c Hc; specialize (H c Hc).
    + now rewrite negb_involutive in H.
    + now rewrite negb_involutive.
  - apply validateCommands_errors.
  - rewrite validateCommands_errors. apply length_map.
  - intros c _. rewrite (validateCommand_cases c) at 1.
    destruct (cmd_isValid (validateCommand c)); reflexivity.
Qed.

End Validator.

(* ------------------------------------------------------------------ *)
(** ** The command extractor *)

Section Extractor.

Import GeoGebraValidator.

Lemma stripPrefix_Some (p s r : jsstring) :
  stripPrefix p s = Some r <-> s = p ++ r.
Proof.
  revert s; induction p as [|x p IH]; intros s; simpl.
  - split; [intros [= ->]; reflexivity | intros ->; reflexivity].
  - destruct s as [|c s]; [split; discriminate |].
    destruct (N.eqb_spec x c) as [->|Hne].
    + rewrite IH. split; [intros ->; reflexivity | intros [= ->]; reflexivity].
    + split; [discriminate | intros [= E _]; congruence].
Qed.

Lemma cut_eq (needle hay : jsstring) :
  cut needle hay
  = match stripPrefix needle hay with
    | Some after => Some ([], after)
    | None =>
        match hay with
        | [] => None
        | c :: hay' =>
            match cut needle hay' with
            | Some (before, after) => Some (c :: before, after)
            | None => None
            end
        end
    end.
Proof. destruct hay; reflexivity. Qed.

Lemma cut_Some (needle hay before after : jsstring) :
  cut needle hay = Some (before, after) -> hay = before ++ needle ++ after.
Proof.
  revert before; induction hay as [|c hay IH]; intros before;
    rewrite cut_eq; destruct (stripPrefix needle _) as [r|] eqn:E.
  - intros [= <- <-]. now apply stripPrefix_Some in E.
  - discriminate.
  - intros [= <- <-]. now apply stripPrefix_Some in E.
  - destruct (cut needle hay) as [[b a]|]; [| discriminate].
    intros [= <- <-]. simpl. f_equal. now apply IH.
Qed.

Lemma cut_None (needle hay : jsstring) :
  ~ occurs needle hay -> cut needle hay = None.
Proof.
  intros H. destruct (cut needle hay) as [[b a]|] eqn:E; [| reflexivity].
  exfalso. apply H. exists b, a. now apply cut_Some.
Qed.

Lemma firstAt_tail (needle before : jsstring) (c : N) :
  firstAt needle (c :: before) -> firstAt needle before.
Proof.
  intros H b a E. apply (H (c :: b) a). simpl. now rewrite E.
Qed.

Lemma firstAt_head (needle before after r : jsstring) (c : N) :
  firstAt needle (c :: before) ->
  (c :: before) ++ needle ++ after <> needle ++ r.
Proof.
  intros H E.
  assert (L : List.length r = List.length (c :: before) + List.length after).
  { apply (f_equal (@List.length N)) in E. rewrite !length_app in E. lia. }
  assert (K : (c :: before) ++ needle
              = needle ++ firstn (List.length (c :: before)) r).
  { transitivity (firstn (List.length ((c :: before) ++ needle))
                         (((c :: before) ++ needle) ++ after)).
    - rewrite firstn_app, firstn_all, Nat.sub_diag. simpl.
      now rewrite app_nil_r.
    - rewrite <- app_assoc, E, firstn_app.
      rewrite firstn_all2 by (rewrite length_app; lia).
      f_equal. f_equal. rewrite length_app. lia. }
  specialize (H [] _ K).
  apply (f_equal (@List.length N)) in H.
  rewrite length_firstn, Nat.min_l in H by lia. discriminate H.
Qed.

(** [cut] finds the first occurrence. *)
Lemma cut_first (needle before after : jsstring) :
  firstAt needle before ->
  cut needle (before ++ needle ++ after) = Some (before, after).
Proof.
  induction before as [|c before IH]; intros H; rewrite cut_eq.
  - simpl. now rewrite (proj2 (stripPrefix_Some needle (needle ++ after) after) eq_refl).
  - destruct (stripPrefix needle ((c :: before) ++ needle ++ after)) as [r|] eqn:E.
    + apply stripPrefix_Some in E. now apply firstAt_head in E.
    + simpl. now rewrite (IH (firstAt_tail H)).
Qed.

Lemma firstAt_absent_nil (needle : jsstring) : firstAt needle [].
Proof.
  intros b a E. apply (f_equal (@List.length N)) in E.
  rewrite !length_app in E. simpl in E.
  destruct a; [reflexivity | simpl in E; lia].
Qed.

(** Text without the first character of the needle cannot hide an earlier
    occurrence. *)
Lemma firstAt_absent (c0 : N) (needle' before : jsstring) :
  forallb (fun c => negb (c =? c0)%N) before = true ->
  firstAt (c0 :: needle') before.
Proof.
  induction before as [|x before IH]; intros H b a E.
  - apply (f_equal (@List.length N)) in E.
    rewrite !length_app in E. simpl in E.
    destruct a; [reflexivity | simpl in E; lia].
  - simpl in H. apply andb_true_iff in H as [Hx H].
    destruct b as [|y b]; simpl in E.
    + injection E as -> _. now rewrite N.eqb_refl in Hx.
    + injection E as _ E. now apply (IH H b a).
Qed.

(** What [cut] finds is the first occurrence. *)
Lemma cut_Some_first (needle hay before after : jsstring) :
  cut needle hay = Some (before, after) -> firstAt needle before.
Proof.
  revert before. induction hay as [|c hay IH]; intros before;
    rewrite cut_eq; destruct (stripPrefix needle _) as [r|] eqn:E.
  - intros [= <- <-]. now apply firstAt_absent_nil.
  - discriminate.
  - intros [= <- <-]. now apply firstAt_absent_nil.
  - destruct (cut needle hay) as [[b0 a0]|] eqn:C; [| discriminate].
    intros [= <- <-]. specialize (IH b0 eq_refl).
    intros b a H. destruct b as [|y b].
    + exfalso. apply cut_Some in C.
      assert (S : stripPrefix needle (c :: hay) = Some (a ++ a0)).
      { apply stripPrefix_Some. rewrite C.
        change (c :: b0 ++ needle ++ a0) with ((c :: b0) ++ needle ++ a0).
        rewrite app_assoc, H. simpl. now rewrite <- !app_assoc. }
      congruence.
    + simpl in H. injection H as _ H. now apply (IH b a).
Qed.

(** [cut] finds an occurrence whenever there is one, and not later than
    any given one. *)
Lemma cut_complete (needle before after : jsstring) :
  exists b a x,
    cut needle (before ++ needle ++ after) = Some (b, a) /\ a = x ++ after.
Proof.
  induction before as [|c before (b & a & x & C & X)]; rewrite cut_eq.
  - simpl. rewrite (proj2 (stripPrefix_Some needle (needle ++ after) after) eq_refl).
    exists [], after, []. auto.
  - destruct (stripPrefix needle ((c :: before) ++ needle ++ after)) as [r|] eqn:E.
    + exists [], r, (firstn (List.length (c :: before)) r). split; [reflexivity |].
      apply stripPrefix_Some in E.
      assert (K : skipn (List.length needle) ((c :: before) ++ needle ++ after) = r).
      { rewrite E, skipn_app, skipn_all, Nat.sub_diag. reflexivity. }
      assert (L : skipn (List.length (c :: before)) r = after).
      { rewrite <- K, skipn_skipn.
        replace (List.length (c :: before) + List.length needle)%nat
          with (List.length ((c :: before) ++ needle))
          by (rewrite length_app; reflexivity).
        rewrite app_assoc, skipn_app, skipn_all, Nat.sub_diag. reflexivity. }
      rewrite <- L. symmetry. apply firstn_skipn.
    + simpl. rewrite C. exists (c :: b), a, x. auto.
Qed.

Lemma exec_Some (text block rest : jsstring) :
  exec text = Some (block, rest) ->
  exists pre, text = pre ++ fenceOpen ++ block ++ fenceClose ++ rest.
Proof.
  unfold exec. destruct (cut fenceOpen text) as [[pre afterOpen]|] eqn:E1;
    [| discriminate].
  intros E2. apply cut_Some in E1, E2. exists pre. now rewrite E1, E2.
Qed.

Lemma exec_first (pre body rest : jsstring) :
  firstAt fenceOpen pre -> firstAt fenceClose body ->
  exec (pre ++ fenceOpen ++ body ++ fenceClose ++ rest) = Some (body, rest).
Proof.
  intros H1 H2. unfold exec. rewrite (cut_first _ H1). now apply cut_first.
Qed.

(** [exec] is the regular expression: it matches exactly the texts with a
    closed block, at the first opening fence, up to the first closing fence
    after it. *)
Lemma exec_spec (text : jsstring) :
  match exec text with
  | None => ~ closedBlock text
  | Some (block, rest) =>
      exists pre,
        text = pre ++ fenceOpen ++ block ++ fenceClose ++ rest
        /\ firstAt fenceOpen pre /\ firstAt fenceClose block
  end.
Proof.
  unfold exec.
  destruct (cut fenceOpen text) as [[pre afterOpen]|] eqn:E1.
  - destruct (cut fenceClose afterOpen) as [[block rest]|] eqn:E2.
    + exists pre. pose proof (cut_Some_first _ _ E1). pose proof (cut_Some_first _ _ E2).
      apply cut_Some in E1, E2. subst. auto.
    + intros (pre' & body & post & ->).
      destruct (cut_complete fenceOpen pre' (body ++ fenceClose ++ post))
        as (b & a & x & C & ->).
      rewrite C in E1. injection E1 as -> <-.
      destruct (cut_complete fenceClose (x ++ body) post) as (b' & a' & x' & C' & _).
      rewrite <- !app_assoc in C'.
      assert (E : cut fenceClose (x ++ body ++ fenceClose ++ post) = None)
        by exact E2.
      congruence.
  - intros (pre' & body & post & ->).
    destruct (cut_complete fenceOpen pre' (body ++ fenceClose ++ post))
      as (b & a & x & C & _).
    congruence.
Qed.

Lemma exec_shrinks (text block rest : jsstring) :
  exec text = Some (block, rest) -> (List.length rest < List.length text)%nat.
Proof.
  intros H. apply exec_Some in H as [pre ->].
  rewrite !length_app. unfold fenceOpen; simpl. lia.
Qed.

Lemma extractLoop_acc (fuel : nat) (rest : jsstring) (acc : list jsstring) :
  extractLoop fuel rest acc = acc ++ extractLoop fuel rest [].
Proof.
  revert rest acc; induction fuel as [|fuel IH]; intros rest acc; simpl.
  - now rewrite app_nil_r.
  - destruct (exec rest) as [[block rest']|]; [| now rewrite app_nil_r].
    rewrite (IH rest' (acc ++ _)), (IH rest' (commandLines block)).
    now rewrite app_assoc.
Qed.

(** The loop never runs out of fuel: any fuel from [length rest] on gives
    the same commands. *)
Lemma extractLoop_enough (fuel1 fuel2 : nat) (rest : jsstring) (acc : list jsstring) :
  (List.length rest <= fuel1)%nat -> (List.length rest <= fuel2)%nat ->
  extractLoop fuel1 rest acc = extractLoop fuel2 rest acc.
Proof.
  revert fuel2 rest acc.
  induction fuel1 as [|fuel1 IH]; intros fuel2 rest acc H1 H2.
  - destruct rest; [| simpl in H1; lia]. destruct fuel2; reflexivity.
  - destruct fuel2 as [|fuel2].
    + destruct rest; [| simpl in H2; lia]. reflexivity.
    + simpl. destruct (exec rest) as [[block rest']|] eqn:E; [| reflexivity].
      apply exec_shrinks in E. apply IH; lia.
Qed.

(** The loop of [extractCommands], one match at a time. *)
Lemma extractCommands_unfold (text : jsstring) :
  extractCommands text
  = match exec text with
    | None => []
    | Some (block, rest) => commandLines block ++ extractCommands rest
    end.
Proof.
  unfold extractCommands.
  destruct text as [|c text]; [reflexivity |].
  cbn [List.length extractLoop].
  destruct (exec (c :: text)) as [[block rest]|] eqn:E; [| reflexivity].
  rewrite extractLoop_acc. simpl. f_equal.
  apply exec_shrinks in E. simpl in E. apply extractLoop_enough; lia.
Qed.

Lemma split_plain (sep : N -> bool) (l : jsstring) :
  Forall (fun c => sep c = false) l -> split sep l = [l].
Proof.
  induction 1 as [|c l Hc _ IH]; simpl; [reflexivity |].
  now rewrite Hc, IH.
Qed.

Lemma split_app (sep : N -> bool) (l s : jsstring) (c : N) :
  Forall (fun c => sep c = false) l -> sep c = true ->
  split sep (l ++ c :: s) = l :: split sep s.
Proof.
  intros Hl Hc. induction Hl as [|x l Hx _ IH]; simpl.
  - now rewrite Hc.
  - now rewrite Hx, IH.
Qed.

(** Splitting at line feeds gives back the lines that were joined. *)
Lemma split_join (lines : list jsstring) :
  lines <> [] ->
  Forall (fun l => ~ In LF l) lines ->
  split (N.eqb LF) (join [LF] lines) = lines.
Proof.
  assert (P : forall l : jsstring,
            ~ In LF l -> Forall (fun c => (LF =? c)%N = false) l).
  { intros l Hl. apply Forall_forall. intros c Hc.
    apply N.eqb_neq. intros <-. contradiction. }
  induction lines as [|l lines IH]; intros Hne Hall; [contradiction |].
  inversion Hall as [|? ? Hl Hrest]; subst.
  destruct lines as [|l2 lines].
  - simpl. apply split_plain, P, Hl.
  - change (join [LF] (l :: l2 :: lines)) with (l ++ LF :: join [LF] (l2 :: lines)).
    rewrite split_app by (auto using N.eqb_refl).
    f_equal. apply IH; [discriminate | assumption].
Qed.

Lemma trimStart_nil (l : jsstring) : trimStart l = [] <-> blank l = true.
Proof.
  unfold blank. induction l as [|c l IH]; simpl; [tauto |].
  destruct (isWhiteSpace c); simpl; [exact IH | split; discriminate].
Qed.

Lemma trimStart_head (l r : jsstring) (c : N) :
  trimStart l = c :: r -> isWhiteSpace c = false.
Proof.
  induction l as [|x l IH]; simpl; [discriminate |].
  destruct (isWhiteSpace x) eqn:Hx; [exact IH | intros [= -> _]; exact Hx].
Qed.

Lemma blank_rev (l : jsstring) : blank (rev l) = blank l.
Proof.
  unfold blank. apply eq_true_iff_eq. rewrite !forallb_forall.
  split; intros H c Hc; apply H; [now apply in_rev in Hc | now apply in_rev].
Qed.

(** A line trims to nothing exactly when it is blank. *)
Lemma trim_nil (l : jsstring) : trim l = [] <-> blank l = true.
Proof.
  unfold trim, trimEnd. split.
  - intros H. apply (f_equal (@rev N)) in H. rewrite rev_involutive in H.
    simpl in H. apply trimStart_nil in H. rewrite blank_rev in H.
    destruct (trimStart l) as [|c r] eqn:E; [now apply trimStart_nil |].
    apply trimStart_head in E. unfold blank in H. simpl in H.
    now rewrite E in H.
  - intros H. apply trimStart_nil in H. now rewrite H.
Qed.

Lemma commandLines_join (lines : list jsstring) :
  lines <> [] ->
  Forall (fun l => ~ In LF l) lines ->
  commandLines (join [LF] lines)
  = map trim (filter (fun l => negb (blank l)) lines).
Proof.
  intros Hne Hall. unfold commandLines. rewrite (split_join Hne Hall).
  clear. induction lines as [|l lines IH]; simpl; [reflexivity |].
  destruct (blank l) eqn:B; simpl.
  - rewrite (proj2 (trim_nil l) B). exact IH.
  - destruct (trim l) as [|c r] eqn:T.
    + apply trim_nil in T. congruence.
    + simpl. now rewrite IH.
Qed.

Lemma closedBlock_backtick (text : jsstring) :
  closedBlock text -> In backtick text.
Proof.
  intros (pre & body & post & ->). apply in_or_app. right.
  unfold fenceOpen. simpl. auto.
Qed.

(** C4: the extractor returns nothing for a text with no closed geogebra
    block; the commands of a block followed by those of the rest of the
    text, in document order, when the text has a block; for a text whose
    only block holds the given lines, the trimmed non-blank lines in their
    order, as many as there are non-blank lines; nothing at all for an
    opening fence that is never closed; and every text with a closed block
    splits at its first block in this way. *)
Theorem extractCommands_blocks :
  (forall text, ~ closedBlock text -> extractCommands text = [])
  /\ (forall pre body rest,
         firstAt fenceOpen pre -> firstAt fenceClose body ->
         extractCommands (pre ++ fenceOpen ++ body ++ fenceClose ++ rest)
         = commandLines body ++ extractCommands rest)
  /\ (forall pre lines post,
         firstAt fenceOpen pre ->
         lines <> [] ->
         Forall (fun l => ~ In LF l) lines ->
         firstAt fenceClose (join [LF] lines) ->
         ~ closedBlock post ->
         let text := pre ++ fenceOpen ++ join [LF] lines ++ fenceClose ++ post in
         let kept := filter (fun l => negb (blank l)) lines in
         extractCommands text = map trim kept
         /\ List.length (extractCommands text) = List.length kept
         /\ (List.length kept + List.length (filter blank lines)
             = List.length lines)%nat
         /\ Forall (fun command => command <> []) (extractCommands text))
  /\ (forall pre tail,
         firstAt fenceOpen pre -> ~ occurs fenceClose tail ->
         extractCommands (pre ++ fenceOpen ++ tail) = [])
  /\ (forall text,
         closedBlock text ->
         exists pre body rest,
           text = pre ++ fenceOpen ++ body ++ fenceClose ++ rest
           /\ firstAt fenceOpen pre /\ firstAt fenceClose body
           /\ extractCommands text = commandLines body ++ extractCommands rest).
Proof.
  assert (A : forall text, ~ closedBlock text -> extractCommands text = []).
  { intros text H. rewrite extractCommands_unfold.
    destruct (exec text) as [[block rest]|] eqn:E; [| reflexivity].
    exfalso. apply H. apply exec_Some in E as [pre ->].
    now exists pre, block, rest. }
  assert (B : forall pre body rest,
             firstAt fenceOpen pre -> firstAt fenceClose body ->
             extractCommands (pre ++ fenceOpen ++ body ++ fenceClose ++ rest)
             = commandLines body ++ extractCommands rest).
  { intros pre body rest H1 H2.
    rewrite extractCommands_unfold at 1. now rewrite (exec_first _ H1 H2). }
  split; [exact A |]. split; [exact B |]. split.
  - intros pre lines post H1 Hne Hlf H2 Hpost text kept.
    assert (E : extractCommands text = map trim kept).
    { unfold text. rewrite (B _ _ _ H1 H2), (A _ Hpost), app_nil_r.
      now apply commandLines_join. }
    split; [exact E |]. split; [rewrite E; apply length_map |]. split.
    + unfold kept. clear. induction lines as [|l lines IH]; simpl; [reflexivity |].
      destruct (blank l); simpl; lia.
    + rewrite E. unfold kept. apply Forall_forall. intros c Hc.
      apply in_map_iff in Hc as (l & <- & Hl).
      apply filter_In in Hl as [_ Hl]. intros T. apply trim_nil in T.
      now rewrite T in Hl.
  - split.
    + intros pre tail H1 H2. rewrite extractCommands_unfold. unfold exec.
      now rewrite (cut_first _ H1), (cut_None H2).
    + intros text H. pose proof (exec_spec text) as S.
      rewrite (extractCommands_unfold text).
      destruct (exec text) as [[body rest]|]; [| contradiction].
      destruct S as (pre & E & F1 & F2). now exists pre, body, rest.
Qed.

Lemma absent_not_In (x : N) (l : jsstring) :
  forallb (fun c => negb (c =? x)%N) l = true -> ~ In x l.
Proof.
  rewrite forallb_forall. intros H Hx. specialize (H x Hx).
  now rewrite N.eqb_refl in H.
Qed.

(** C4 at a sample text: one block of four lines, two of them blank. *)
Lemma extractCommands_blocks_witness :
  extractCommands Sample.fencedText = [js "A = (1,2)"; js "Circle(A, 3)"].
Proof.
  destruct extractCommands_blocks as (_ & _ & L & _ & _).
  refine (eq_trans
            (proj1 (L (js "Try this: ") Sample.blockLines (js " Done.")
                      _ _ _ _ _)) _).
  - unfold fenceOpen. apply firstAt_absent. reflexivity.
  - discriminate.
  - repeat constructor; apply absent_not_In; reflexivity.
  - unfold fenceClose. apply firstAt_absent. reflexivity.
  - intros H. apply closedBlock_backtick in H. revert H.
    apply absent_not_In. reflexivity.
  - vm_compute. reflexivity.
Defined.

End Extractor.

(* ------------------------------------------------------------------ *)
(** ** The stream annotator *)

Section Annotator.

Import GeoGebraValidator.

(** What [transform] enqueues, in terms of the commands of the chunk. *)
Lemma transform_spec (c : chunk) :
  transform c
  = let commands := extractCommands (TextDecoder_decode c) in
    if forallb (fun command => negb (invalid command)) commands then [c]
    else [TextEncoder_encode
            (warningOf (map messageOf (filter invalid commands))); c].
Proof.
  unfold transform. cbv zeta.
  rewrite validateCommands_isValid, validateCommands_errors.
  destruct (extractCommands (TextDecoder_decode c)) as [|x l]; [reflexivity |].
  cbn [List.length Nat.ltb Nat.leb].
  destruct (forallb _ (x :: l)); reflexivity.
Qed.

(** C3: a chunk all of whose commands are valid, and so also a chunk with
    no command at all, is passed on alone and unchanged. *)
Theorem transform_passthrough (c : chunk) :
  (forall command,
      In command (extractCommands (TextDecoder_decode c)) ->
      cmd_isValid (validateCommand command) = true) ->
  transform c = [c].
Proof.
  intros H. rewrite transform_spec. cbv zeta.
  replace (forallb _ _) with true; [reflexivity |].
  symmetry. apply forallb_forall. intros command Hc.
  unfold invalid. now rewrite (H command Hc).
Qed.

(** C3 at a chunk with one known command. *)
Lemma transform_passthrough_witness :
  transform Sample.pointChunk = [Sample.pointChunk].
Proof.
  apply transform_passthrough.
  intros command H. vm_compute in H.
  destruct H as [<- | []]. vm_compute. reflexivity.
Defined.

Lemma filter_invalid_one (valid1 valid2 : list jsstring) (bad : jsstring) :
  Forall (fun command => invalid command = false) valid1 ->
  Forall (fun command => invalid command = false) valid2 ->
  invalid bad = true ->
  filter invalid (valid1 ++ bad :: valid2) = [bad].
Proof.
  intros H1 H2 Hb. rewrite filter_app. simpl. rewrite Hb.
  assert (F : forall l, Forall (fun command => invalid command = false) l ->
                        filter invalid l = []).
  { induction 1 as [|x l Hx _ IH]; simpl; [reflexivity | now rewrite Hx]. }
  now rewrite (F _ H1), (F _ H2).
Qed.

(** C2 (as the code has it): when exactly one command of the chunk is
    invalid, with name [Bar], the annotator emits two chunks: the UTF-8
    encoding of a warning text that contains ["未知的GeoGebra命令: " ++ Bar],
    then the chunk itself, unchanged. *)
Theorem transform_one_invalid
        (c : chunk) (valid1 valid2 : list jsstring) (bad : jsstring) :
  extractCommands (TextDecoder_decode c) = valid1 ++ bad :: valid2 ->
  Forall (fun command => cmd_isValid (validateCommand command) = true) valid1 ->
  Forall (fun command => cmd_isValid (validateCommand command) = true) valid2 ->
  cmd_isValid (validateCommand bad) = false ->
  let Bar := commandNameOf bad in
  let warning :=
    ([LF; LF] ++ js "⚠️ 警告：发现以下无效的GeoGebra命令：" ++ [LF])
    ++ (js "未知的GeoGebra命令: " ++ Bar)
    ++ ([LF] ++ js "请检查命令是否正确。") in
  transform c = [TextEncoder_encode warning; c]
  /\ errors (validateCommands (extractCommands (TextDecoder_decode c)))
     = [js "未知的GeoGebra命令: " ++ Bar]
  /\ occurs (js "未知的GeoGebra命令: " ++ Bar) warning.
Proof.
  intros E H1 H2 Hb Bar warning.
  assert (V : forall l,
             Forall (fun command => cmd_isValid (validateCommand command) = true) l ->
             Forall (fun command => invalid command = false) l).
  { intros l. apply Forall_impl. intros x Hx. unfold invalid. now rewrite Hx. }
  assert (Hbad : invalid bad = true) by (unfold invalid; now rewrite Hb).
  assert (F := @filter_invalid_one valid1 valid2 bad (V _ H1) (V _ H2) Hbad).
  split; [| split].
  - rewrite transform_spec. cbv zeta. rewrite E, F.
    replace (forallb _ _) with false.
    + unfold warning, warningOf, Bar. simpl map. unfold messageOf, join.
      reflexivity.
    + symmetry. apply not_true_is_false. intros A.
      rewrite forallb_forall in A.
      specialize (A bad (in_elt bad valid1 valid2)). now rewrite Hbad in A.
  - now rewrite validateCommands_errors, E, F.
  - now eexists _, _.
Qed.

(** C2 at a chunk whose only command is [Bar(1)]. *)
Lemma transform_one_invalid_witness :
  transform Sample.barChunk
  = [TextEncoder_encode
       (([LF; LF] ++ js "⚠️ 警告：发现以下无效的GeoGebra命令：" ++ [LF])
        ++ (js "未知的GeoGebra命令: " ++ js "Bar")
        ++ ([LF] ++ js "请检查命令是否正确。"));
     Sample.barChunk].
Proof.
  refine (proj1 (@transform_one_invalid Sample.barChunk [] [] (js "Bar(1)")
                   _ _ _ _)).
  - vm_compute. reflexivity.
  - constructor.
  - constructor.
  - vm_compute. reflexivity.
Defined.

(** C2 as the specification words it does not hold: the warning chunk of
    that chunk does not contain ["unknown command: Bar"]. *)
Lemma transform_warning_not_english :
  ~ exists w,
      transform Sample.barChunk = [w; Sample.barChunk]
      /\ includes (js "unknown command: Bar") (TextDecoder_decode w) = true.
Proof.
  intros (w & E & I). vm_compute in E. injection E as <-.
  vm_compute in I. discriminate I.
Qed.

End Annotator.

(* ------------------------------------------------------------------ *)
(** ** The handler *)

Section Handler.

Variable rt : Runtime.
Variable env : Env.

Lemma bind_ret {A B} (a : A) (k : A -> M B) : bind (ret a) k = k a.
Proof. unfold bind, ret. now destruct (k a). Qed.

Lemma bind_throw {A B} (k : A -> M B) : bind throw k = throw.
Proof. reflexivity. Qed.

Lemma bind_respond {A B} (resp : Response) (k : A -> M B) :
  bind (respond resp) k = respond resp.
Proof. reflexivity. Qed.

Lemma bind_assoc {A B C} (m : M A) (k : A -> M B) (h : B -> M C) :
  bind m (fun a => bind (k a) h) = bind (bind m k) h.
Proof.
  unfold bind. destruct m as [cs [a| |resp]]; try reflexivity.
  destruct (k a) as [cs1 [b| |resp1]]; try reflexivity.
  destruct (h b) as [cs2 c]. now rewrite app_assoc.
Qed.

Lemma readable_ok (v : jsval) : nullish v = false -> readable v = ret tt.
Proof. unfold readable. now intros ->. Qed.

Lemma readable_throws (v : jsval) : nullish v = true -> readable v = throw.
Proof. unfold readable. now intros ->. Qed.

Lemma silent_bind {A B} (m : M A) (k : A -> M B) :
  silent m -> (forall a, silent (k a)) -> silent (bind m k).
Proof.
  unfold silent, bind. destruct m as [cs [a| |r]]; simpl; intros -> H; auto.
  specialize (H a). destruct (k a) as [cs' c]. simpl in *. now subst.
Qed.

Lemma silent_readable (v : jsval) : silent (readable v).
Proof. unfold readable. destruct (nullish v); reflexivity. Qed.

Lemma silent_Array_find (modelType : jsval) (models : list jsval) :
  silent (Array_find modelType models).
Proof.
  induction models as [|model models IH]; simpl; [reflexivity |].
  apply silent_bind; [apply silent_readable | intros _].
  destruct (strictEq _ _); [reflexivity | exact IH].
Qed.

Lemma silent_findCustomModel (configSettings modelType : jsval) :
  silent (findCustomModel configSettings modelType).
Proof.
  unfold findCustomModel.
  destruct (optGet configSettings "customModels"); try reflexivity.
  apply silent_Array_find.
Qed.

Lemma silent_customApiConfig (customModel : jsval) :
  silent (customApiConfig env customModel).
Proof.
  unfold customApiConfig.
  apply silent_bind; [apply silent_readable | intros _].
  destruct (strictEq _ _); [| reflexivity].
  destruct (negb _); reflexivity.
Qed.

Lemma silent_resolveApiConfig (customModel modelType : jsval) :
  silent (resolveApiConfig rt env customModel modelType).
Proof.
  unfold resolveApiConfig.
  destruct (truthy customModel); [apply silent_customApiConfig | reflexivity].
Qed.

(** The first half of the handler calls nothing. *)
Lemma silent_route (req : Request) : silent (route rt env req).
Proof.
  unfold route.
  apply silent_bind; [destruct req; reflexivity | intros parsed].
  apply silent_bind; [apply silent_readable | intros _].
  apply silent_bind; [apply silent_readable | intros _].
  apply silent_bind; [apply silent_findCustomModel | intros customModel].
  apply silent_bind; [apply silent_resolveApiConfig | intros apiConfig].
  reflexivity.
Qed.

Lemma handle_of_route (req : Request) :
  handle rt env req
  = match snd (route rt env req) with
    | Normal r => serve rt r
    | Throw => ([], Throw)
    | Return resp => ([], Return resp)
    end.
Proof.
  unfold handle, bind. pose proof (silent_route req) as S. unfold silent in S.
  destruct (route rt env req) as [cs [r| |resp]]; simpl in *; subst; try reflexivity.
  now destruct (serve rt r).
Qed.

Lemma route_throws (req : Request) :
  malformed req -> route rt env req = ([], Throw).
Proof.
  intros [-> | (body & -> & H)]; [reflexivity |].
  unfold route. cbn [req_json]. rewrite bind_ret.
  destruct (nullish body) eqn:B.
  - now rewrite (readable_throws _ B).
  - now rewrite (readable_ok _ B), bind_ret, (readable_throws _ H).
Qed.

(** C1 (as the code has it): a request whose body does not parse, or
    whose message list is missing, is answered by the outermost [catch]:
    status 500, body [{ error: "处理请求时发生错误" }], and nothing is called
    upstream. *)
Theorem POST_malformed (req : Request) :
  malformed req ->
  POST rt env req = (JsonError 500 errRequest, [])
  /\ statusOf (fst (POST rt env req)) = 500%N
  /\ snd (POST rt env req) = [].
Proof.
  intros H. unfold POST. rewrite handle_of_route, (route_throws H).
  repeat split.
Qed.

Lemma get_not_nullish (v : jsval) (name : string) :
  nullish (get v name) = false -> exists fields, v = Obj fields.
Proof. destruct v; simpl; try discriminate. eauto. Qed.

Lemma strictEq_defined (a b : jsval) :
  strictEq a b = true -> truthy b = true -> nullish a = false.
Proof. destruct a, b; simpl; congruence. Qed.

Lemma requestedModel_truthy (body : jsval) : truthy (requestedModel body) = true.
Proof.
  unfold requestedModel, orElse.
  destruct (truthy (optGet (configOf body) "modelType")) eqn:T; [exact T | reflexivity].
Qed.

(** The first half of the handler on a body that has a message list. *)
Lemma route_eq (body : jsval) :
  nullish (get body "messages") = false ->
  route rt env (Json body)
  = (customModel <- findCustomModel (configOf body) (requestedModel body) ;;
     apiConfig <- resolveApiConfig rt env customModel (requestedModel body) ;;
     ret (mkResolved (get body "messages") (requestedModel body)
            (optGet (configOf body) "systemPrompt" ||| Str defaultSystemPrompt)
            customModel apiConfig)).
Proof.
  intros H. destruct (get_not_nullish _ _ H) as [fields E].
  unfold route. cbn [req_json]. rewrite bind_ret.
  rewrite (readable_ok body) by (now rewrite E).
  rewrite bind_ret, (readable_ok _ H), bind_ret. reflexivity.
Qed.

(** [find] stops at the first entry that carries the name. *)
Lemma Array_find_first (modelType entry : jsval) (before after : list jsval) :
  Forall (fun m => nullish m = false
                   /\ strictEq (get m "name") modelType = false) before ->
  nullish entry = false ->
  strictEq (get entry "name") modelType = true ->
  Array_find modelType (before ++ entry :: after) = ret entry.
Proof.
  intros Hb He Hn. induction Hb as [|m before [Hm Hname] _ IH]; simpl.
  - now rewrite (readable_ok _ He), bind_ret, Hn.
  - now rewrite (readable_ok _ Hm), bind_ret, Hname.
Qed.

Lemma selectAdapter_custom (customModel modelType : jsval) :
  truthy customModel = true ->
  exists a, selectAdapter customModel modelType = Some a.
Proof.
  intros T. unfold selectAdapter. rewrite T.
  destruct (strictEq _ _); [eauto |]. destruct (strictEq _ _); eauto.
Qed.

(** What the second half calls first, once a key is there. *)
Lemma serve_calls_head (r : Resolved) (a : adapter) :
  truthy (key (apiConfig r)) = true ->
  selectAdapter (customModel r) (modelType r) = Some a ->
  exists rest,
    fst (serve rt r)
    = Create (mkProvider a (key (apiConfig r)) (domain (apiConfig r))) :: rest.
Proof.
  intros K A. unfold serve, checkKey, createModel, createStream.
  rewrite K, A. cbn [negb].
  unfold tryCatch, bind, calling, ret, throw, respond.
  destruct (createThrows rt _); cbn; [eauto |].
  destruct (modelThrows rt _ _); cbn; [eauto |].
  destruct (streamText rt _ _ _ _); cbn; eauto.
Qed.

(** Every factory call of the second half is the selected one, with the
    resolved key and domain. *)
Lemma serve_calls (r : Resolved) (p : provider) :
  In (Create p) (fst (serve rt r)) ->
  selectAdapter (customModel r) (modelType r) = Some (kind p)
  /\ apiKey p = key (apiConfig r)
  /\ baseURL p = domain (apiConfig r).
Proof.
  unfold serve, checkKey, createModel, createStream.
  destruct (truthy (key (apiConfig r))); cbn [negb];
    [| cbn; intros []].
  destruct (selectAdapter (customModel r) (modelType r)) as [a|];
    [| cbn; intros []].
  unfold tryCatch, bind, calling, ret, throw, respond.
  destruct (createThrows rt _); cbn.
  { intros [[= <-] | []]. auto. }
  destruct (modelThrows rt _ _); cbn.
  { intros [[= <-] | [[=] | []]]. auto. }
  destruct (streamText rt _ _ _ _); cbn;
    intros [[= <-] | [[=] | [[=] | []]]]; auto.
Qed.

Lemma POST_of_route (req : Request) (r : Resolved) :
  route rt env req = ret r ->
  snd (POST rt env req) = fst (serve rt r).
Proof.
  intros H. unfold POST. rewrite handle_of_route, H. cbn.
  destruct (serve rt r) as [cs [resp| |resp]]; reflexivity.
Qed.

(** C9: when the selected custom model has no [apiConfig], reading its
    [key] throws (reading [domain] and [path] does not: they are
    optional-chained), and the outermost [catch] answers with status 500
    and the generic error, not with a 400. *)
Theorem POST_custom_model_without_apiConfig (body model : jsval) :
  nullish (get body "messages") = false ->
  selects body model ->
  get model "apiConfig" = Undefined ->
  customApiConfig env model = throw
  /\ optGet (get model "apiConfig") "domain" = Undefined
  /\ optGet (get model "apiConfig") "path" = Undefined
  /\ POST rt env (Json body) = (JsonError 500 errRequest, [])
  /\ statusOf (fst (POST rt env (Json body))) <> 400%N.
Proof.
  intros Hm [Hf Ht] Ha.
  assert (C : customApiConfig env model = throw).
  { unfold customApiConfig. rewrite Ha. reflexivity. }
  assert (P : POST rt env (Json body) = (JsonError 500 errRequest, [])).
  { unfold POST. rewrite handle_of_route, (route_eq _ Hm), Hf, bind_ret.
    unfold resolveApiConfig. rewrite Ht, C. reflexivity. }
  split; [exact C |]. rewrite Ha, P.
  repeat split; try reflexivity. cbn. discriminate.
Qed.

(** C7: when the custom models hold an entry named as the requested model
    (the first of that name, which it is when names are unique) whose key
    is the placeholder, then with [OPENROUTER_API_KEY] unset (or empty) the
    answer is the 400 error that names the variable and points to the
    settings page, and with the variable set, to ["sk-test"] say, the
    resolved key is the variable's value, which is what the factory gets. *)
Theorem placeholder_key_resolution
        (body entry : jsval) (before after : list jsval) :
  nullish (get body "messages") = false ->
  get (configOf body) "customModels" = Arr (before ++ entry :: after) ->
  Forall (fun m => nullish m = false
                   /\ strictEq (get m "name") (requestedModel body) = false)
         before ->
  strictEq (get entry "name") (requestedModel body) = true ->
  get (get entry "apiConfig") "key" = Str OPENROUTER_API_KEY_PLACEHOLDER ->
  (truthy (getenv env "OPENROUTER_API_KEY") = false ->
   POST rt env (Json body) = (JsonError 400 errOpenRouterUnset, []))
  /\ includes (js "OPENROUTER_API_KEY") errOpenRouterUnset = true
  /\ includes (js "设置页面") errOpenRouterUnset = true
  /\ (forall value,
         getenv env "OPENROUTER_API_KEY" = Str value -> value <> [] ->
         exists r a rest,
           route rt env (Json body) = ret r
           /\ customModel r = entry
           /\ key (apiConfig r) = Str value
           /\ snd (POST rt env (Json body))
              = Create (mkProvider a (Str value) (domain (apiConfig r))) :: rest).
Proof.
  intros Hm Hc Hb Hn Hk.
  pose proof (strictEq_defined _ _ Hn (requestedModel_truthy body)) as Hname.
  destruct (get_not_nullish _ _ Hname) as [efields ->].
  assert (Hcfg : exists cfields, configOf body = Obj cfields).
  { apply (get_not_nullish _ "customModels"). now rewrite Hc. }
  destruct Hcfg as [cfields Hcfg].
  assert (Hf : findCustomModel (configOf body) (requestedModel body)
               = ret (Obj efields)).
  { unfold findCustomModel, optGet. rewrite Hcfg at 1. cbn [nullish].
    rewrite Hc. now apply Array_find_first. }
  assert (Ha : exists afields, get (Obj efields) "apiConfig" = Obj afields).
  { apply (get_not_nullish _ "key"). now rewrite Hk. }
  destruct Ha as [afields Ha].
  assert (R : route rt env (Json body)
              = (apiConfig <- customApiConfig env (Obj efields) ;;
                 ret (mkResolved (get body "messages") (requestedModel body)
                        (optGet (configOf body) "systemPrompt"
                         ||| Str defaultSystemPrompt)
                        (Obj efields) apiConfig))).
  { rewrite (route_eq _ Hm), Hf, bind_ret. reflexivity. }
  assert (C : customApiConfig env (Obj efields)
              = if negb (truthy (getenv env "OPENROUTER_API_KEY"))
                then respond (JsonError 400 errOpenRouterUnset)
                else ret (mkApiConfig
                            (optGet (Obj afields) "domain"
                             ||| Str (js "https://api.openai.com"))
                            (optGet (Obj afields) "path"
                             ||| Str (js "/v1/chat/completions"))
                            (getenv env "OPENROUTER_API_KEY" ||| Str (js "")))).
  { unfold customApiConfig. rewrite Ha in *. rewrite Hk.
    rewrite readable_ok, bind_ret by reflexivity.
    change (strictEq (Str OPENROUTER_API_KEY_PLACEHOLDER ||| Str (js ""))
                     (Str OPENROUTER_API_KEY_PLACEHOLDER)) with true.
    cbv iota.
    destruct (negb (truthy (getenv env "OPENROUTER_API_KEY"))); reflexivity. }
  split; [| split; [vm_compute; reflexivity | split; [vm_compute; reflexivity |]]].
  - intros E. unfold POST. rewrite handle_of_route, R, C, E. reflexivity.
  - intros value E Hv.
    destruct value as [|c value]; [contradiction |].
    rewrite C, E in R. cbn [negb truthy List.length Nat.eqb] in R.
    rewrite bind_ret in R.
    destruct (selectAdapter_custom (Obj efields) (requestedModel body) eq_refl)
      as [a A].
    match type of R with
    | _ = ret ?r => destruct (@serve_calls_head r a eq_refl A) as [rest Hrest]
    end.
    eexists _, a, rest. split; [exact R |].
    split; [reflexivity |]. split; [reflexivity |].
    rewrite (POST_of_route _ R). exact Hrest.
Qed.


Lemma bind_ret_inv {A B} (m : M A) (k : A -> M B) (b : B) :
  bind m k = ret b -> exists a, m = ret a /\ k a = ret b.
Proof.
  unfold bind, ret. destruct m as [cs [a| |resp]]; try discriminate.
  destruct (k a) as [cs' c] eqn:K. intros [= E ->].
  apply app_eq_nil in E as [-> ->]. eauto.
Qed.

(** What a successful first half has computed. *)
Lemma route_inv (req : Request) (r : Resolved) :
  route rt env req = ret r ->
  exists body,
    req = Json body
    /\ messages r = get body "messages"
    /\ modelType r = requestedModel body
    /\ findCustomModel (configOf body) (requestedModel body) = ret (customModel r)
    /\ resolveApiConfig rt env (customModel r) (modelType r) = ret (apiConfig r).
Proof.
  destruct req as [|body]; [discriminate |]. intros H. exists body.
  destruct (nullish (get body "messages")) eqn:Hm.
  - rewrite route_throws in H; [discriminate | right; eauto].
  - rewrite (route_eq _ Hm) in H.
    apply bind_ret_inv in H as (cm & Hf & H).
    apply bind_ret_inv in H as (c & Hr & [= <-]).
    cbn. auto.
Qed.

(** C8 (as the code has it): the handler calls a provider factory as soon
    as the first half succeeds with a key and the identifier is a string
    or a custom model matches; and whenever it calls one, it does so with
    the resolved key and domain, and the factory is chosen as follows.  If a custom model matches the identifier, by its
    [provider] field alone: ["anthropic"] gives the Anthropic factory,
    ["deepseek"] the DeepSeek one, anything else the OpenAI one, whatever
    the identifier starts with.  If none matches, the identifier is a
    string and its prefix decides: ["claude"] gives Anthropic, ["deepseek"]
    gives DeepSeek, anything else OpenAI. *)
Theorem adapter_selection :
  (forall req p,
      In (Create p) (snd (POST rt env req)) ->
      exists body r,
        req = Json body
        /\ route rt env req = ret r
        /\ modelType r = requestedModel body
        /\ findCustomModel (configOf body) (modelType r) = ret (customModel r)
        /\ apiKey p = key (apiConfig r)
        /\ baseURL p = domain (apiConfig r)
        /\ (truthy (customModel r) = true ->
            kind p
            = if strictEq (get (customModel r) "provider") (Str (js "anthropic"))
              then Anthropic
              else if strictEq (get (customModel r) "provider") (Str (js "deepseek"))
                   then DeepSeek
                   else OpenAI)
        /\ (truthy (customModel r) = false ->
            exists identifier,
              modelType r = Str identifier
              /\ kind p
                 = if startsWith (js "claude") identifier then Anthropic
                   else if startsWith (js "deepseek") identifier then DeepSeek
                   else OpenAI))
  /\ (forall req r,
         route rt env req = ret r ->
         truthy (key (apiConfig r)) = true ->
         truthy (customModel r) = true
         \/ (exists identifier, modelType r = Str identifier) ->
         exists p rest, snd (POST rt env req) = Create p :: rest).
Proof.
  split; [intros req p H | intros req r R K S].
  2: { assert (A : exists a, selectAdapter (customModel r) (modelType r) = Some a).
       { destruct S as [T | [identifier E]]; [now apply selectAdapter_custom |].
         unfold selectAdapter. rewrite E.
         destruct (truthy (customModel r)).
         - destruct (strictEq _ _); [eauto |]. destruct (strictEq _ _); eauto.
         - destruct (startsWith _ _); [eauto |]. destruct (startsWith _ _); eauto. }
       destruct A as [a A].
       destruct (serve_calls_head r K A) as [rest Hrest].
       rewrite (POST_of_route _ R). eauto. }
  pose proof (silent_route req) as S. unfold silent in S.
  destruct (route rt env req) as [cs [r| |resp]] eqn:R; simpl in S; subst cs;
    try (unfold POST in H; rewrite handle_of_route, R in H; cbn in H;
         contradiction).
  rewrite (POST_of_route _ R) in H.
  apply serve_calls in H as (Hsel & Hkey & Hbase).
  destruct (route_inv _ R) as (body & -> & _ & Hmt & Hf & _).
  exists body, r. rewrite Hmt at 2.
  repeat (split; [assumption || reflexivity |]).
  unfold selectAdapter in Hsel. split; intros T; rewrite T in Hsel.
  - destruct (strictEq _ _); [now injection Hsel |].
    destruct (strictEq _ _); now injection Hsel.
  - destruct (modelType r) as [| | | |identifier| |]; try discriminate.
    exists identifier. split; [reflexivity |].
    destruct (startsWith _ _); [now injection Hsel |].
    destruct (startsWith _ _); now injection Hsel.
Qed.

End Handler.

(** C1 at a body that does not parse. *)
Lemma POST_malformed_witness :
  POST Sample.runtime [] Unparsable = (JsonError 500 errRequest, []).
Proof.
  refine (proj1 (@POST_malformed Sample.runtime [] Unparsable _)).
  left. reflexivity.
Defined.

(** C1 as the specification words it does not hold: neither a body that
    does not parse nor a body without [messages] is answered with status
    400. *)
Lemma POST_malformed_not_400 :
  statusOf (fst (POST Sample.runtime [] Unparsable)) <> 400%N
  /\ statusOf (fst (POST Sample.runtime [] (Json (Sample.object [])))) <> 400%N.
Proof. split; vm_compute; discriminate. Qed.

(** C7 at the sample request, with the variable unset and with the
    variable set to ["sk-test"]. *)
Lemma placeholder_key_resolution_witness :
  POST Sample.runtime [] (Json (Sample.placeholderRequest Null))
  = (JsonError 400 errOpenRouterUnset, [])
  /\ exists r a rest,
      route Sample.runtime [("OPENROUTER_API_KEY"%string, js "sk-test")]
            (Json (Sample.placeholderRequest Null)) = ret r
      /\ customModel r = Sample.placeholderModel Null
      /\ key (apiConfig r) = Str (js "sk-test")
      /\ snd (POST Sample.runtime [("OPENROUTER_API_KEY"%string, js "sk-test")]
                   (Json (Sample.placeholderRequest Null)))
         = Create (mkProvider a (Str (js "sk-test")) (domain (apiConfig r))) :: rest.
Proof.
  split.
  - refine (proj1 (@placeholder_key_resolution Sample.runtime []
                     (Sample.placeholderRequest Null)
                     (Sample.placeholderModel Null) [] []
                     _ _ _ _ _) _); try reflexivity; constructor.
  - refine (proj2 (proj2 (proj2
             (@placeholder_key_resolution Sample.runtime
                [("OPENROUTER_API_KEY"%string, js "sk-test")]
                (Sample.placeholderRequest Null)
                (Sample.placeholderModel Null) [] []
                _ _ _ _ _))) (js "sk-test") _ _);
      try reflexivity; try constructor. discriminate.
Defined.

(** C9 at the sample request whose custom model has no [apiConfig]. *)
Lemma POST_custom_model_without_apiConfig_witness :
  POST Sample.runtime [] (Json Sample.bareRequest)
  = (JsonError 500 errRequest, []).
Proof.
  refine (proj1 (proj2 (proj2 (proj2
           (@POST_custom_model_without_apiConfig Sample.runtime []
              Sample.bareRequest
              (Sample.object [("name", Sample.text "y");
                              ("provider", Sample.text "openai")]%string)
              _ _ _))))).
  - reflexivity.
  - split; reflexivity.
  - reflexivity.
Defined.

(** C8 at the default request with the OpenAI key set: the one factory
    call is the OpenAI one. *)
Lemma adapter_selection_witness :
  exists body r,
    Json (Sample.withModelType "gpt-4o") = Json body
    /\ route Sample.runtime [("OPENAI_API_KEY"%string, js "sk-1")]
             (Json (Sample.withModelType "gpt-4o")) = ret r
    /\ modelType r = requestedModel body
    /\ findCustomModel (configOf body) (modelType r) = ret (customModel r)
    /\ Str (js "sk-1") = key (apiConfig r)
    /\ Str (js "https://api.openai.com") = domain (apiConfig r)
    /\ (truthy (customModel r) = true ->
        OpenAI
        = if strictEq (get (customModel r) "provider") (Str (js "anthropic"))
          then Anthropic
          else if strictEq (get (customModel r) "provider") (Str (js "deepseek"))
               then DeepSeek
               else OpenAI)
    /\ (truthy (customModel r) = false ->
        exists identifier,
          modelType r = Str identifier
          /\ OpenAI
             = if startsWith (js "claude") identifier then Anthropic
               else if startsWith (js "deepseek") identifier then DeepSeek
               else OpenAI).
Proof.
  apply (proj1 (@adapter_selection Sample.runtime
                  [("OPENAI_API_KEY"%string, js "sk-1")])
               (Json (Sample.withModelType "gpt-4o"))
               (mkProvider OpenAI (Str (js "sk-1")) (Str (js "https://api.openai.com")))).
  vm_compute. left. reflexivity.
Defined.

(** C8 as the specification words it does not hold: an identifier that
    begins with the provider name ["anthropic"] and matches no custom
    model gets the OpenAI factory, not the Anthropic one. *)
Lemma anthropic_prefix_selects_OpenAI :
  exists p,
    hd_error (snd (POST Sample.runtime [("OPENAI_API_KEY"%string, js "sk-1")]
                        (Json (Sample.withModelType "anthropic-large"))))
    = Some (Create p)
    /\ kind p = OpenAI
    /\ kind p <> Anthropic.
Proof.
  eexists. split; [vm_compute; reflexivity |]. split; [reflexivity | discriminate].
Qed.

(* ------------------------------------------------------------------ *)
(** ** The path of the resolved endpoint *)

Section Path.

Variable rt : Runtime.
Variable env : Env.

Lemma lookup_map_same (k : jsstring) (f : jsval -> jsval)
      (fields : list (jsstring * jsval)) :
  f Undefined = Undefined ->
  lookup k (map (fun kv => if jsstring_eqb k (fst kv)
                           then (fst kv, f (snd kv)) else kv) fields)
  = f (lookup k fields).
Proof.
  intros U. induction fields as [|[k' v] fields IH]; simpl; [now rewrite U |].
  destruct (jsstring_eqb k k') eqn:E; simpl; now rewrite E.
Qed.

Lemma lookup_map_other (k k' : jsstring) (f : jsval -> jsval)
      (fields : list (jsstring * jsval)) :
  jsstring_eqb k k' = false ->
  lookup k' (map (fun kv => if jsstring_eqb k (fst kv)
                            then (fst kv, f (snd kv)) else kv) fields)
  = lookup k' fields.
Proof.
  intros N. induction fields as [|[x v] fields IH]; simpl; [reflexivity |].
  destruct (jsstring_eqb k x) eqn:E; simpl.
  - apply jsstring_eqb_eq in E. subst x.
    replace (jsstring_eqb k' k) with false; [exact IH |].
    symmetry. apply jsstring_eqb_neq. apply jsstring_eqb_neq in N. congruence.
  - now rewrite IH.
Qed.

Lemma lookup_filter_same (k : jsstring) (fields : list (jsstring * jsval)) :
  lookup k (filter (fun kv => negb (jsstring_eqb k (fst kv))) fields) = Undefined.
Proof.
  induction fields as [|[x v] fields IH]; simpl; [reflexivity |].
  destruct (jsstring_eqb k x) eqn:E; simpl; [exact IH | now rewrite E].
Qed.

Lemma lookup_filter_other (k k' : jsstring) (fields : list (jsstring * jsval)) :
  jsstring_eqb k k' = false ->
  lookup k' (filter (fun kv => negb (jsstring_eqb k (fst kv))) fields)
  = lookup k' fields.
Proof.
  intros N. induction fields as [|[x v] fields IH]; simpl; [reflexivity |].
  destruct (jsstring_eqb k x) eqn:E; simpl.
  - apply jsstring_eqb_eq in E. subst x.
    replace (jsstring_eqb k' k) with false; [exact IH |].
    symmetry. apply jsstring_eqb_neq. apply jsstring_eqb_neq in N. congruence.
  - now rewrite IH.
Qed.

Lemma get_mapField_same (name : string) (f : jsval -> jsval) (v : jsval) :
  f Undefined = Undefined -> get (mapField name f v) name = f (get v name).
Proof.
  intros U. destruct v; simpl; try (now rewrite U).
  now apply lookup_map_same.
Qed.

Lemma get_mapField_other (name name' : string) (f : jsval -> jsval) (v : jsval) :
  jsstring_eqb (js name) (js name') = false ->
  get (mapField name f v) name' = get v name'.
Proof. intros N. destruct v; simpl; try reflexivity. now apply lookup_map_other. Qed.

Lemma get_dropField_same (name : string) (v : jsval) :
  get (dropField name v) name = Undefined.
Proof. destruct v; simpl; try reflexivity. apply lookup_filter_same. Qed.

Lemma get_dropField_other (name name' : string) (v : jsval) :
  jsstring_eqb (js name) (js name') = false ->
  get (dropField name v) name' = get v name'.
Proof. intros N. destruct v; simpl; try reflexivity. now apply lookup_filter_other. Qed.

Lemma nullish_mapField (name : string) (f : jsval -> jsval) (v : jsval) :
  nullish (mapField name f v) = nullish v.
Proof. now destruct v. Qed.

Lemma truthy_mapField (name : string) (f : jsval -> jsval) (v : jsval) :
  truthy (mapField name f v) = truthy v.
Proof. now destruct v. Qed.

Lemma nullish_dropField (name : string) (v : jsval) :
  nullish (dropField name v) = nullish v.
Proof. now destruct v. Qed.

Lemma optGet_mapField_other (name name' : string) (f : jsval -> jsval) (v : jsval) :
  jsstring_eqb (js name) (js name') = false ->
  optGet (mapField name f v) name' = optGet v name'.
Proof.
  intros N. unfold optGet. now rewrite nullish_mapField, get_mapField_other.
Qed.

Lemma optGet_dropField_other (name name' : string) (v : jsval) :
  jsstring_eqb (js name) (js name') = false ->
  optGet (dropField name v) name' = optGet v name'.
Proof.
  intros N. unfold optGet. now rewrite nullish_dropField, get_dropField_other.
Qed.

Lemma mmap_bind {A B C} (f : A -> B) (m : M A) (k : B -> M C) :
  bind (mmap f m) k = bind m (fun a => k (f a)).
Proof. destruct m as [cs [a| |resp]]; reflexivity. Qed.

Lemma Array_find_forget (modelType : jsval) (models : list jsval) :
  Array_find modelType (map forgetPath models)
  = mmap forgetPath (Array_find modelType models).
Proof.
  induction models as [|model models IH]; simpl; [reflexivity |].
  unfold readable, forgetPath at 1 2. rewrite nullish_mapField.
  destruct (nullish model); [reflexivity |]. rewrite !bind_ret.
  rewrite get_mapField_other by reflexivity.
  destruct (strictEq _ _); [reflexivity | exact IH].
Qed.

Lemma findCustomModel_forget (configSettings modelType : jsval) :
  findCustomModel (mapField "customModels" (mapItems forgetPath) configSettings)
                  modelType
  = mmap forgetPath (findCustomModel configSettings modelType).
Proof.
  unfold findCustomModel, optGet. rewrite nullish_mapField.
  destruct (nullish configSettings); [reflexivity |].
  rewrite get_mapField_same by reflexivity.
  destruct (get configSettings "customModels"); try reflexivity.
  apply Array_find_forget.
Qed.

(** Forgetting the path of a custom model changes the resolved
    configuration in its [path] only. *)
Lemma customApiConfig_forget (customModel : jsval) :
  mmap (withPath Undefined) (customApiConfig env (forgetPath customModel))
  = mmap (withPath Undefined) (customApiConfig env customModel).
Proof.
  unfold customApiConfig, forgetPath.
  rewrite get_mapField_same by reflexivity.
  set (apiConfig := get customModel "apiConfig").
  rewrite !optGet_dropField_other by reflexivity.
  unfold readable. rewrite nullish_dropField.
  destruct (nullish apiConfig); [reflexivity |]. rewrite !bind_ret.
  rewrite get_dropField_other by reflexivity.
  destruct (strictEq _ _); [destruct (negb _) |]; reflexivity.
Qed.

(** The second half of the handler reads the key and the domain of the
    resolved configuration, the truth value of the custom model and its
    [provider], and nothing else of them. *)
Lemma serve_blind (r r' : Resolved) :
  messages r = messages r' ->
  modelType r = modelType r' ->
  systemPrompt r = systemPrompt r' ->
  truthy (customModel r) = truthy (customModel r') ->
  get (customModel r) "provider" = get (customModel r') "provider" ->
  withPath Undefined (apiConfig r) = withPath Undefined (apiConfig r') ->
  serve rt r = serve rt r'.
Proof.
  destruct r as [ms mt sp cm [d p k]], r' as [ms' mt' sp' cm' [d' p' k']].
  cbn. intros -> -> -> Hc Hp [= -> ->].
  unfold serve, checkKey, createModel, selectAdapter. cbn.
  now rewrite Hc, Hp.
Qed.

Lemma resolve_then_serve_forget
      (messages modelType systemPrompt customModel : jsval) :
  (apiConfig <- resolveApiConfig rt env (forgetPath customModel) modelType ;;
   r <- ret (mkResolved messages modelType systemPrompt
                        (forgetPath customModel) apiConfig) ;;
   serve rt r)
  = (apiConfig <- resolveApiConfig rt env customModel modelType ;;
     r <- ret (mkResolved messages modelType systemPrompt customModel apiConfig) ;;
     serve rt r).
Proof.
  assert (B : forall c c',
             withPath Undefined c = withPath Undefined c' ->
             serve rt (mkResolved messages modelType systemPrompt
                                  (forgetPath customModel) c)
             = serve rt (mkResolved messages modelType systemPrompt customModel c')).
  { intros c c' E. apply serve_blind; cbn; try reflexivity; try assumption.
    - apply truthy_mapField.
    - unfold forgetPath. now apply get_mapField_other. }
  unfold resolveApiConfig, forgetPath at 1. rewrite truthy_mapField.
  destruct (truthy customModel).
  - pose proof (customApiConfig_forget customModel) as E.
    pose proof (silent_customApiConfig env customModel) as S1.
    pose proof (silent_customApiConfig env (forgetPath customModel)) as S2.
    unfold silent in S1, S2.
    destruct (customApiConfig env customModel) as [cs1 [c1| |resp1]],
             (customApiConfig env (forgetPath customModel)) as [cs2 [c2| |resp2]];
      cbn in E, S1, S2; subst cs1 cs2; try discriminate E;
      try (injection E as E; subst); try reflexivity.
    change (@pair (list call) (completion ApiConfig) [] (Normal c2)) with (ret c2).
    change (@pair (list call) (completion ApiConfig) [] (Normal c1)) with (ret c1).
    rewrite !bind_ret. apply B. unfold withPath. congruence.
  - rewrite !bind_ret. now apply B.
Qed.

(** The handler does not see the path of a custom model. *)
Lemma handle_forget (body : jsval) :
  handle rt env (Json (forgetPaths body)) = handle rt env (Json body).
Proof.
  assert (Hmsg : get (forgetPaths body) "messages" = get body "messages").
  { unfold forgetPaths. now apply get_mapField_other. }
  destruct (nullish (get body "messages")) eqn:Hm.
  - rewrite !handle_of_route, !route_throws; [reflexivity | right .. ].
    + exists body. auto.
    + exists (forgetPaths body). split; [reflexivity | now rewrite Hmsg].
  - assert (Hcfg : configOf (forgetPaths body)
                   = mapField "customModels" (mapItems forgetPath) (configOf body)).
    { unfold configOf, forgetPaths. now apply get_mapField_same. }
    assert (Hmt : requestedModel (forgetPaths body) = requestedModel body).
    { unfold requestedModel. rewrite Hcfg.
      now rewrite optGet_mapField_other by reflexivity. }
    unfold handle.
    rewrite (route_eq rt env body Hm).
    rewrite (route_eq rt env (forgetPaths body)) by (now rewrite Hmsg).
    rewrite Hmt, Hmsg, Hcfg, findCustomModel_forget.
    rewrite optGet_mapField_other by reflexivity.
    pose proof (silent_findCustomModel (configOf body) (requestedModel body)) as S.
    unfold silent in S.
    destruct (findCustomModel (configOf body) (requestedModel body))
      as [cs [cm| |resp]]; cbn in S; subst cs; cbn [mmap]; try reflexivity.
    change (@pair (list call) (completion jsval) [] (Normal (forgetPath cm)))
      with (ret (forgetPath cm)).
    change (@pair (list call) (completion jsval) [] (Normal cm)) with (ret cm).
    rewrite !bind_ret.
    pose proof (resolve_then_serve_forget (get body "messages")
                  (requestedModel body)
                  (optGet (configOf body) "systemPrompt" ||| Str defaultSystemPrompt)
                  cm) as E.
    rewrite <- !bind_assoc. exact E.
Qed.

(** C10: the path of the resolved endpoint is never observed.  Two
    requests that differ only in the [path] of custom models' [apiConfig]
    get the same response and cause the same calls; whatever path the
    resolved configuration carries (that of a custom model or of a built-in
    preset), the second half of the handler behaves the same; and a
    provider factory is only ever given the resolved key and domain. *)
Theorem path_never_observed :
  (forall body1 body2,
      forgetPaths body1 = forgetPaths body2 ->
      POST rt env (Json body1) = POST rt env (Json body2))
  /\ (forall r pathValue,
         serve rt (mkResolved (messages r) (modelType r) (systemPrompt r)
                              (customModel r) (withPath pathValue (apiConfig r)))
         = serve rt r)
  /\ (forall r p,
         In (Create p) (fst (serve rt r)) ->
         apiKey p = key (apiConfig r) /\ baseURL p = domain (apiConfig r)).
Proof.
  split; [| split].
  - intros body1 body2 E. unfold POST.
    rewrite <- (handle_forget body1), <- (handle_forget body2), E.
    reflexivity.
  - intros r pathValue. apply serve_blind; reflexivity.
  - intros r p H. now apply serve_calls in H.
Qed.

End Path.

(** C10 at the sample request, once with a path and once without. *)
Lemma path_never_observed_witness :
  POST Sample.runtime [("OPENROUTER_API_KEY"%string, js "sk-test")]
       (Json (Sample.placeholderRequest (Sample.text "/api/v1/chat/completions")))
  = POST Sample.runtime [("OPENROUTER_API_KEY"%string, js "sk-test")]
         (Json (Sample.placeholderRequest Null)).
Proof.
  apply (proj1 (path_never_observed Sample.runtime
                  [("OPENROUTER_API_KEY"%string, js "sk-test")])).
  vm_compute. reflexivity.
Defined.

(* ================================================================== *)
(** * Part III. Further properties of the handler *)
(* ================================================================== *)

Section Outcomes.

Variable rt : Runtime.
Variable env : Env.

Lemma POST_of_serve (req : Request) (r : Resolved) :
  route rt env req = ret r ->
  POST rt env req
  = match serve rt r with
    | (calls, Normal resp) => (resp, calls)
    | (calls, Return resp) => (resp, calls)
    | (calls, Throw) => (JsonError 500 errRequest, calls)
    end.
Proof. intros H. unfold POST. now rewrite handle_of_route, H. Qed.

(** The second half of the handler, once a key is there and a factory is
    chosen. *)
Lemma serve_outcome (r : Resolved) (a : adapter) :
  truthy (key (apiConfig r)) = true ->
  selectAdapter (customModel r) (modelType r) = Some a ->
  serve rt r
  = let p := mkProvider a (key (apiConfig r)) (domain (apiConfig r)) in
    if createThrows rt p then ([Create p], Return (JsonError 500 errInit))
    else if modelThrows rt p (modelType r)
         then ([Create p; Model p (modelType r)], Throw)
         else match streamText rt p (modelType r) (systemPrompt r) (messages r) with
              | None =>
                  ([Create p; Model p (modelType r);
                    StreamText p (modelType r) (systemPrompt r) (messages r)],
                   Return (JsonError 500 errStream))
              | Some body =>
                  ([Create p; Model p (modelType r);
                    StreamText p (modelType r) (systemPrompt r) (messages r)],
                   Normal (Streamed (pipeThrough body)))
              end.
Proof.
  intros K A. unfold serve, checkKey, createModel, createStream.
  rewrite K, A. cbn [negb].
  unfold tryCatch, bind, calling, ret, throw, respond. cbv zeta.
  destruct (createThrows rt _); cbn; [reflexivity |].
  destruct (modelThrows rt _ _); cbn; [reflexivity |].
  destruct (streamText rt _ _ _ _); reflexivity.
Qed.

(** X1: the outcomes of a request whose configuration resolved with a key
    and for which a factory is chosen.  A factory that throws gives 500
    with the initialization error; a model constructor that throws is
    caught by the outermost [catch] only, so it gives the generic 500; a
    stream that cannot be created gives 500 with the stream error;
    otherwise the answer is the annotated stream.  The calls made are the
    ones before the failure. *)
Theorem POST_outcomes (req : Request) (r : Resolved) (a : adapter) :
  route rt env req = ret r ->
  truthy (key (apiConfig r)) = true ->
  selectAdapter (customModel r) (modelType r) = Some a ->
  let p := mkProvider a (key (apiConfig r)) (domain (apiConfig r)) in
  let created := Create p in
  let modelled := Model p (modelType r) in
  let streamed := StreamText p (modelType r) (systemPrompt r) (messages r) in
  (createThrows rt p = true ->
   POST rt env req = (JsonError 500 errInit, [created]))
  /\ (createThrows rt p = false -> modelThrows rt p (modelType r) = true ->
      POST rt env req = (JsonError 500 errRequest, [created; modelled]))
  /\ (createThrows rt p = false -> modelThrows rt p (modelType r) = false ->
      streamText rt p (modelType r) (systemPrompt r) (messages r) = None ->
      POST rt env req = (JsonError 500 errStream, [created; modelled; streamed]))
  /\ (forall body,
         createThrows rt p = false -> modelThrows rt p (modelType r) = false ->
         streamText rt p (modelType r) (systemPrompt r) (messages r) = Some body ->
         POST rt env req
         = (Streamed (pipeThrough body), [created; modelled; streamed])).
Proof.
  intros R K A p created modelled streamed.
  rewrite (POST_of_serve _ R), (serve_outcome r K A). cbv zeta.
  subst created modelled streamed p.
  split; [| split; [| split]].
  - now intros ->.
  - now intros -> ->.
  - now intros -> -> ->.
  - now intros body -> -> ->.
Qed.

(** When the resolved key is empty or missing, the answer is the 400
    error about the missing key (the OpenRouter text exactly when the
    identifier is ["deepseek-free"]) and nothing is called. *)
Lemma POST_missing_key (req : Request) (r : Resolved) :
  route rt env req = ret r ->
  truthy (key (apiConfig r)) = false ->
  POST rt env req
  = (JsonError 400
       (if strictEq (modelType r) (Str (js "deepseek-free"))
        then errMissingOpenRouterKey else errMissingKey),
     []).
Proof.
  intros R K. rewrite (POST_of_serve _ R).
  unfold serve, checkKey. now rewrite K.
Qed.

(** The four ways in which the second half of the handler ends. *)
Lemma serve_cases (r : Resolved) :
  (exists e, serve rt r = ([], Return (JsonError 400 e)))
  \/ (exists calls e,
         (List.length calls <= 3)%nat
         /\ serve rt r = (calls, Return (JsonError 500 e)))
  \/ (exists calls, (List.length calls <= 2)%nat /\ serve rt r = (calls, Throw))
  \/ (exists p body,
         serve rt r
         = ([Create p; Model p (modelType r);
             StreamText p (modelType r) (systemPrompt r) (messages r)],
            Normal (Streamed (pipeThrough body)))
         /\ streamText rt p (modelType r) (systemPrompt r) (messages r) = Some body).
Proof.
  destruct (truthy (key (apiConfig r))) eqn:K.
  - destruct (selectAdapter (customModel r) (modelType r)) as [a|] eqn:A.
    + rewrite (serve_outcome r K A). cbv zeta.
      destruct (createThrows rt _).
      { right. left. eexists _, _. split; [| reflexivity]. cbn. lia. }
      destruct (modelThrows rt _ _).
      { right. right. left. eexists. split; [| reflexivity]. cbn. lia. }
      destruct (streamText rt _ _ _ _) as [body|] eqn:S.
      * right. right. right. eexists _, body. split; [reflexivity | exact S].
      * right. left. eexists _, _. split; [| reflexivity]. cbn. lia.
    + right. left. exists [], errInit. split; [cbn; lia |].
      unfold serve, checkKey, createModel. now rewrite K, A.
  - left. eexists. unfold serve, checkKey. now rewrite K.
Qed.

Lemma bind_Return_inv {A B} (m : M A) (k : A -> M B) (resp : Response) :
  snd (bind m k) = Return resp ->
  snd m = Return resp \/ exists a, snd m = Normal a /\ snd (k a) = Return resp.
Proof.
  unfold bind. destruct m as [cs [a| |resp']]; cbn.
  - destruct (k a) as [cs' c] eqn:E. cbn. intros ->. right. exists a.
    split; [reflexivity | rewrite E; reflexivity].
  - discriminate.
  - intros [= ->]. left. reflexivity.
Qed.

(** The only early answer of the first half is the 400 about the
    environment variable. *)
Lemma route_Return (req : Request) (resp : Response) :
  snd (route rt env req) = Return resp ->
  resp = JsonError 400 errOpenRouterUnset.
Proof.
  unfold route. intros H.
  apply bind_Return_inv in H as [H | (parsed & _ & H)];
    [destruct req; discriminate |].
  apply bind_Return_inv in H as [H | (_ & _ & H)];
    [unfold readable in H; destruct (nullish parsed); discriminate |].
  apply bind_Return_inv in H as [H | (_ & _ & H)];
    [unfold readable in H; destruct (nullish _); discriminate |].
  apply bind_Return_inv in H as [H | (cm & _ & H)].
  { exfalso. revert H. unfold findCustomModel.
    destruct (optGet _ "customModels") as [| | | | |models|]; try discriminate.
    generalize (optGet (get parsed "configSettings") "modelType" ||| Str (js "gpt-4o")).
    intros mt. induction models as [|m models IH]; cbn; [discriminate |].
    unfold readable. destruct (nullish m); [discriminate |].
    rewrite bind_ret. destruct (strictEq _ _); [discriminate | exact IH]. }
  apply bind_Return_inv in H as [H | (c & _ & H)]; [| discriminate].
  unfold resolveApiConfig in H. destruct (truthy cm); [| discriminate].
  unfold customApiConfig in H.
  apply bind_Return_inv in H as [H | (_ & _ & H)];
    [unfold readable in H; destruct (nullish _); discriminate |].
  destruct (strictEq _ _); [| discriminate].
  destruct (negb _); [| discriminate]. now injection H as <-.
Qed.

(** X2: for every request, the status is 200, 400 or 500 and at most three
    calls are made; a 400 is answered before anything is called; and a
    stream is answered only after exactly one factory call, one model
    construction and one [streamText], all for the same provider, the body
    being the annotated stream of that call. *)
Theorem POST_shape (req : Request) :
  let resp := fst (POST rt env req) in
  let calls := snd (POST rt env req) in
  (statusOf resp = 200%N \/ statusOf resp = 400%N \/ statusOf resp = 500%N)
  /\ (List.length calls <= 3)%nat
  /\ (statusOf resp = 400%N -> calls = [])
  /\ (forall streamedBody,
         resp = Streamed streamedBody ->
         exists p modelType systemPrompt messages body,
           calls = [Create p; Model p modelType;
                    StreamText p modelType systemPrompt messages]
           /\ streamText rt p modelType systemPrompt messages = Some body
           /\ streamedBody = pipeThrough body).
Proof.
  cbv zeta. unfold POST. rewrite handle_of_route.
  destruct (snd (route rt env req)) as [r| |resp] eqn:R.
  - destruct (serve_cases r)
      as [[e ->] | [(calls & e & L & ->) | [(calls & L & ->) | (p & body & -> & S)]]];
      cbn; repeat split; auto; try lia; try discriminate.
    intros b [= <-]. eauto 10.
  - cbn. repeat split; auto; discriminate.
  - apply route_Return in R. subst resp. cbn.
    repeat split; auto; discriminate.
Qed.

End Outcomes.

Section Routing.

Variable rt : Runtime.
Variable env : Env.

(** The built-in preset of an identifier that is a string. *)
Lemma builtIn_fallback (s : jsstring) :
  ~ In s [js "gpt-4o"; js "claude-3-opus"; js "deepseek-chat"] ->
  ~ In s objectPrototypeKeys ->
  builtInApiConfig rt env (Str s)
  = mkApiConfig (Str (js "https://api.openai.com"))
                (Str (js "/v1/chat/completions"))
                (getenv env "OPENAI_API_KEY" ||| Str (js "")).
Proof.
  intros Hp Hk. unfold builtInApiConfig. cbn [toString].
  assert (D : forall k, In k [js "gpt-4o"; js "claude-3-opus"; js "deepseek-chat"] ->
                        jsstring_eqb s k = false).
  { intros k Ik. apply jsstring_eqb_neq. intros ->. contradiction. }
  assert (O : ownProperty s (builtInConfigs env) = None).
  { unfold builtInConfigs. cbn [ownProperty].
    rewrite (D (js "gpt-4o") (or_introl eq_refl)).
    rewrite (D (js "claude-3-opus") (or_intror (or_introl eq_refl))).
    rewrite (D (js "deepseek-chat") (or_intror (or_intror (or_introl eq_refl)))).
    reflexivity. }
  rewrite O.
  replace (existsb (jsstring_eqb s) objectPrototypeKeys) with false.
  - reflexivity.
  - symmetry. apply not_true_is_false. intros H. apply Hk.
    apply existsb_exists in H as (k & Hk' & E).
    apply jsstring_eqb_eq in E. now subst.
Qed.

Lemma builtIn_inherited (s : jsstring) :
  In s objectPrototypeKeys ->
  builtInApiConfig rt env (Str s) = inheritedMember
  /\ strictEq (Str s) (Str (js "deepseek-free")) = false.
Proof.
  intros H. unfold objectPrototypeKeys in H. cbn [map In] in H.
  repeat (destruct H as [<- | H]; [split; reflexivity |]).
  contradiction.
Qed.

Lemma route_no_custom (body : jsval) :
  nullish (get body "messages") = false ->
  findCustomModel (configOf body) (requestedModel body) = ret Undefined ->
  route rt env (Json body)
  = ret (mkResolved (get body "messages") (requestedModel body)
           (optGet (configOf body) "systemPrompt" ||| Str defaultSystemPrompt)
           Undefined
           (builtInApiConfig rt env (requestedModel body))).
Proof.
  intros Hm Hf. rewrite (route_eq rt env _ Hm), Hf, bind_ret.
  unfold resolveApiConfig. cbn [truthy]. now rewrite bind_ret.
Qed.

Lemma route_custom (body model : jsval) :
  nullish (get body "messages") = false ->
  selects body model ->
  route rt env (Json body)
  = (apiConfig <- customApiConfig env model ;;
     ret (mkResolved (get body "messages") (requestedModel body)
            (optGet (configOf body) "systemPrompt" ||| Str defaultSystemPrompt)
            model apiConfig)).
Proof.
  intros Hm [Hf Ht]. rewrite (route_eq rt env _ Hm), Hf, bind_ret.
  unfold resolveApiConfig. now rewrite Ht.
Qed.

Lemma selectAdapter_string (s : jsstring) :
  selectAdapter Undefined (Str s)
  = Some (if startsWith (js "claude") s then Anthropic
          else if startsWith (js "deepseek") s then DeepSeek
          else OpenAI).
Proof.
  unfold selectAdapter. cbn [truthy].
  destruct (startsWith _ s); [reflexivity |].
  destruct (startsWith _ s); reflexivity.
Qed.

(** X3: a request without [configSettings] is routed to the identifier
    ["gpt-4o"], the default system prompt and the OpenAI preset, whose key
    is [OPENAI_API_KEY]: unset (or empty), the answer is the 400 about the
    missing key and nothing is called; set, the OpenAI factory is called
    with that key and [https://api.openai.com]. *)
Theorem default_request (body : jsval) :
  nullish (get body "messages") = false ->
  nullish (configOf body) = true ->
  route rt env (Json body)
  = ret (mkResolved (get body "messages") (Str (js "gpt-4o"))
           (Str defaultSystemPrompt) Undefined
           (mkApiConfig (Str (js "https://api.openai.com"))
                        (Str (js "/v1/chat/completions"))
                        (getenv env "OPENAI_API_KEY" ||| Str (js ""))))
  /\ (truthy (getenv env "OPENAI_API_KEY") = false ->
      POST rt env (Json body) = (JsonError 400 errMissingKey, []))
  /\ (forall value,
         getenv env "OPENAI_API_KEY" = Str value -> value <> [] ->
         exists rest,
           snd (POST rt env (Json body))
           = Create (mkProvider OpenAI (Str value) (Str (js "https://api.openai.com")))
               :: rest).
Proof.
  intros Hm Hc.
  assert (Q : requestedModel body = Str (js "gpt-4o")).
  { unfold requestedModel, optGet. now rewrite Hc. }
  assert (F : findCustomModel (configOf body) (requestedModel body) = ret Undefined).
  { unfold findCustomModel, optGet. now rewrite Hc. }
  assert (R := @route_no_custom body Hm F).
  rewrite Q in R. unfold optGet in R. rewrite Hc in R.
  change (builtInApiConfig rt env (Str (js "gpt-4o")))
    with (mkApiConfig (Str (js "https://api.openai.com"))
                      (Str (js "/v1/chat/completions"))
                      (getenv env "OPENAI_API_KEY" ||| Str (js ""))) in R.
  split; [exact R |]. split.
  - intros E. rewrite (@POST_missing_key rt env _ _ R); [reflexivity |].
    cbn [apiConfig key]. unfold orElse. now rewrite E.
  - intros value E Hv. destruct value as [|c value]; [contradiction |].
    rewrite (@POST_of_route rt env _ _ R).
    match type of R with
    | _ = ret ?r =>
        destruct (@serve_calls_head rt r OpenAI) as [rest Hrest];
          [cbn; now rewrite E | reflexivity |]
    end.
    exists rest. rewrite Hrest. cbn. now rewrite E.
Qed.

(** X4: an identifier that matches no custom model and is no preset name
    (nor a property name of [Object.prototype]) falls back to the OpenAI
    preset, while the factory still follows its prefix: so the Anthropic
    and DeepSeek factories are called with [OPENAI_API_KEY] and
    [https://api.openai.com] for every ["claude..."] or ["deepseek..."]
    identifier other than [claude-3-opus] and [deepseek-chat]. *)
Theorem unknown_identifier_gets_OpenAI_preset (body : jsval) (s value : jsstring) :
  nullish (get body "messages") = false ->
  requestedModel body = Str s ->
  findCustomModel (configOf body) (requestedModel body) = ret Undefined ->
  ~ In s [js "gpt-4o"; js "claude-3-opus"; js "deepseek-chat"] ->
  ~ In s objectPrototypeKeys ->
  getenv env "OPENAI_API_KEY" = Str value -> value <> [] ->
  exists rest,
    snd (POST rt env (Json body))
    = Create (mkProvider
                (if startsWith (js "claude") s then Anthropic
                 else if startsWith (js "deepseek") s then DeepSeek
                 else OpenAI)
                (Str value) (Str (js "https://api.openai.com")))
        :: rest.
Proof.
  intros Hm Q F Hp Hk E Hv.
  assert (R := @route_no_custom body Hm F). rewrite Q in R.
  rewrite (@builtIn_fallback s Hp Hk), E in R.
  destruct value as [|c value]; [contradiction |].
  rewrite (@POST_of_route rt env _ _ R).
  match type of R with
  | _ = ret ?r =>
      destruct (@serve_calls_head rt r _ eq_refl (selectAdapter_string s))
        as [rest Hrest]
  end.
  exists rest. exact Hrest.
Qed.

(** X5: an identifier that matches no custom model and is a property name
    of [Object.prototype] (["toString"], ["constructor"], ...) finds that
    inherited member in [builtInConfigs] instead of a preset; it has no
    key, so the answer is the 400 about the missing key whatever the
    environment holds. *)
Theorem prototype_identifier_has_no_key (body : jsval) (s : jsstring) :
  nullish (get body "messages") = false ->
  requestedModel body = Str s ->
  findCustomModel (configOf body) (requestedModel body) = ret Undefined ->
  In s objectPrototypeKeys ->
  POST rt env (Json body) = (JsonError 400 errMissingKey, []).
Proof.
  intros Hm Q F Hk.
  assert (R := @route_no_custom body Hm F). rewrite Q in R.
  destruct (@builtIn_inherited s Hk) as [B D]. rewrite B in R.
  rewrite (@POST_missing_key rt env _ _ R); [| reflexivity].
  cbn [modelType]. now rewrite D.
Qed.


(** X7: a selected custom model whose [apiConfig] has no key, or an empty
    one, is answered with the 400 about the missing key, whatever the
    environment holds: the keys of the built-in presets are never used for
    a custom model. *)
Theorem custom_model_without_key (body model : jsval) :
  nullish (get body "messages") = false ->
  selects body model ->
  nullish (get model "apiConfig") = false ->
  truthy (get (get model "apiConfig") "key") = false ->
  POST rt env (Json body)
  = (JsonError 400
       (if strictEq (requestedModel body) (Str (js "deepseek-free"))
        then errMissingOpenRouterKey else errMissingKey),
     []).
Proof.
  intros Hm Hs Ha Hk.
  assert (C : customApiConfig env model
              = ret (mkApiConfig
                       (optGet (get model "apiConfig") "domain"
                        ||| Str (js "https://api.openai.com"))
                       (optGet (get model "apiConfig") "path"
                        ||| Str (js "/v1/chat/completions"))
                       (Str (js "")))).
  { assert (Kv : get (get model "apiConfig") "key" ||| Str (js "") = Str (js ""))
      by (unfold orElse; now rewrite Hk).
    unfold customApiConfig. cbv zeta.
    rewrite (readable_ok _ Ha), bind_ret, Kv. reflexivity. }
  assert (R := @route_custom body model Hm Hs). rewrite C, bind_ret in R.
  now rewrite (@POST_missing_key rt env _ _ R).
Qed.

End Routing.

Section Isolation.

Variable rt : Runtime.

Lemma customApiConfig_env (env1 env2 : Env) (model : jsval) :
  getenv env1 "OPENROUTER_API_KEY" = getenv env2 "OPENROUTER_API_KEY"
  \/ strictEq (get (get model "apiConfig") "key" ||| Str (js ""))
              (Str OPENROUTER_API_KEY_PLACEHOLDER) = false ->
  customApiConfig env1 model = customApiConfig env2 model.
Proof.
  intros H. unfold customApiConfig. cbv zeta.
  destruct (nullish (get model "apiConfig")) eqn:Ha.
  - now rewrite (readable_throws _ Ha).
  - rewrite (readable_ok _ Ha), !bind_ret.
    destruct H as [-> | ->]; reflexivity.
Qed.

(** X8: for a request that selects a custom model, the environment matters
    through [OPENROUTER_API_KEY] alone, and not at all unless the key of
    the model is the placeholder: the keys of the built-in presets have no
    part in the answer or in the calls. *)
Theorem custom_model_env_isolation (env1 env2 : Env) (body model : jsval) :
  nullish (get body "messages") = false ->
  selects body model ->
  getenv env1 "OPENROUTER_API_KEY" = getenv env2 "OPENROUTER_API_KEY"
  \/ strictEq (get (get model "apiConfig") "key" ||| Str (js ""))
              (Str OPENROUTER_API_KEY_PLACEHOLDER) = false ->
  POST rt env1 (Json body) = POST rt env2 (Json body).
Proof.
  intros Hm Hs H. unfold POST, handle.
  rewrite (@route_custom rt env1 body model Hm Hs).
  rewrite (@route_custom rt env2 body model Hm Hs).
  now rewrite (customApiConfig_env env1 env2 model H).
Qed.

(** X9: when the key of the selected custom model is the placeholder, the
    value of [OPENROUTER_API_KEY] is handed to a factory together with the
    domain that the request itself gives for that model, the factory being
    the one its [provider] field stands for. *)
Theorem placeholder_key_goes_to_requested_domain
        (env : Env) (body model requestedDomain : jsval) (value : jsstring) :
  nullish (get body "messages") = false ->
  selects body model ->
  get (get model "apiConfig") "key" = Str OPENROUTER_API_KEY_PLACEHOLDER ->
  get (get model "apiConfig") "domain" = requestedDomain ->
  truthy requestedDomain = true ->
  getenv env "OPENROUTER_API_KEY" = Str value -> value <> [] ->
  exists rest,
    snd (POST rt env (Json body))
    = Create (mkProvider (adapterOfProvider (get model "provider"))
                         (Str value) requestedDomain)
        :: rest.
Proof.
  intros Hm Hs Hk Hd Td E Hv.
  destruct value as [|c value]; [contradiction |].
  assert (Ha : nullish (get model "apiConfig") = false).
  { destruct (get_not_nullish (get model "apiConfig") "key") as [fields ->];
      [now rewrite Hk | reflexivity]. }
  assert (C : customApiConfig env model
              = ret (mkApiConfig requestedDomain
                       (optGet (get model "apiConfig") "path"
                        ||| Str (js "/v1/chat/completions"))
                       (Str (c :: value)))).
  { unfold customApiConfig. cbv zeta.
    rewrite (readable_ok _ Ha), bind_ret, Hk.
    change (strictEq (Str OPENROUTER_API_KEY_PLACEHOLDER ||| Str (js ""))
                     (Str OPENROUTER_API_KEY_PLACEHOLDER)) with true.
    cbv iota. rewrite E. cbn [negb truthy List.length Nat.eqb].
    unfold optGet. rewrite Ha, Hd. unfold orElse at 1. now rewrite Td. }
  assert (R := @route_custom rt env body model Hm Hs). rewrite C, bind_ret in R.
  rewrite (@POST_of_route rt env _ _ R).
  assert (A : selectAdapter model (requestedModel body)
              = Some (adapterOfProvider (get model "provider"))).
  { unfold selectAdapter, adapterOfProvider. rewrite (proj2 Hs).
    destruct (strictEq _ _); [reflexivity |]. destruct (strictEq _ _); reflexivity. }
  match type of R with
  | _ = ret ?r => destruct (@serve_calls_head rt r _ eq_refl A) as [rest Hrest]
  end.
  exists rest. exact Hrest.
Qed.

Lemma serve_call_arguments (r : Resolved) (c : call) :
  In c (fst (serve rt r)) ->
  match c with
  | Create p => apiKey p = key (apiConfig r) /\ baseURL p = domain (apiConfig r)
  | Model p identifier => identifier = modelType r
  | StreamText p identifier system history =>
      identifier = modelType r /\ system = systemPrompt r /\ history = messages r
  end.
Proof.
  destruct (truthy (key (apiConfig r))) eqn:K.
  - destruct (selectAdapter (customModel r) (modelType r)) as [a|] eqn:A.
    + rewrite (serve_outcome rt r K A). cbv zeta.
      destruct (createThrows rt _); [| destruct (modelThrows rt _ _);
                                       [| destruct (streamText rt _ _ _ _)]];
        cbn [fst In]; intuition (subst; cbn; auto).
    + unfold serve, checkKey, createModel. rewrite K, A. cbn. contradiction.
  - unfold serve, checkKey. rewrite K. cbn. contradiction.
Qed.

(** X10: what goes upstream.  The model is constructed, and the stream is
    requested, for the requested identifier itself (which for a custom
    model is its name); the system prompt is the one of the request, or the
    default one when the request has none or an empty one; the messages
    are passed on as they came. *)
Theorem upstream_arguments (env : Env) (req : Request) (c : call) :
  In c (snd (POST rt env req)) ->
  exists body,
    req = Json body
    /\ match c with
       | Create p => True
       | Model p identifier => identifier = requestedModel body
       | StreamText p identifier system history =>
           identifier = requestedModel body
           /\ system = systemPromptOf body
           /\ history = get body "messages"
       end.
Proof.
  intros H.
  pose proof (silent_route rt env req) as S. unfold silent in S.
  destruct (route rt env req) as [cs [r| |resp]] eqn:R; simpl in S; subst cs;
    try (unfold POST in H; rewrite handle_of_route, R in H; cbn in H;
         contradiction).
  rewrite (@POST_of_route rt env _ _ R) in H.
  apply serve_call_arguments in H.
  destruct req as [|body]; [discriminate |]. exists body. split; [reflexivity |].
  destruct (nullish (get body "messages")) eqn:Hm.
  { rewrite route_throws in R; [discriminate | right; eauto]. }
  rewrite (route_eq rt env _ Hm) in R.
  apply bind_ret_inv in R as (cm & _ & R).
  apply bind_ret_inv in R as (ac & _ & [= <-]).
  destruct c; cbn in H; auto.
Qed.

End Isolation.

Section Unread.

Variable rt : Runtime.
Variable env : Env.

Variable g : jsval -> jsval.
Hypothesis g_undefined : g Undefined = Undefined.
Hypothesis g_nullish : forall m, nullish (g m) = nullish m.
Hypothesis g_truthy : forall m, truthy (g m) = truthy m.
Hypothesis g_name : forall m, get (g m) "name" = get m "name".
Hypothesis g_provider : forall m, get (g m) "provider" = get m "provider".
Hypothesis g_apiConfig : forall m, get (g m) "apiConfig" = get m "apiConfig".

Lemma Array_find_edit (modelType : jsval) (models : list jsval) :
  Array_find modelType (map g models) = mmap g (Array_find modelType models).
Proof.
  induction models as [|model models IH]; simpl; [now rewrite g_undefined |].
  unfold readable. rewrite g_nullish.
  destruct (nullish model); [reflexivity |]. rewrite !bind_ret, g_name.
  destruct (strictEq _ _); [reflexivity | exact IH].
Qed.

Lemma findCustomModel_edit (configSettings modelType : jsval) :
  findCustomModel (mapField "customModels" (mapItems g) configSettings) modelType
  = mmap g (findCustomModel configSettings modelType).
Proof.
  unfold findCustomModel, optGet. rewrite nullish_mapField.
  destruct (nullish configSettings); [now rewrite <- g_undefined at 1 |].
  rewrite get_mapField_same by reflexivity.
  destruct (get configSettings "customModels"); cbn [mapItems mmap ret];
    try reflexivity; try (now rewrite g_undefined).
  apply Array_find_edit.
Qed.

(** The handler reads the name, the provider and the [apiConfig] of a
    custom model, and whether it is there: an edit that keeps these is not
    seen. *)
Lemma handle_edit (body : jsval) :
  handle rt env (Json (editModels g body)) = handle rt env (Json body).
Proof.
  assert (Hmsg : get (editModels g body) "messages" = get body "messages").
  { unfold editModels. now apply get_mapField_other. }
  destruct (nullish (get body "messages")) eqn:Hm.
  - rewrite !handle_of_route, !route_throws; [reflexivity | right .. ].
    + exists body. auto.
    + exists (editModels g body). split; [reflexivity | now rewrite Hmsg].
  - assert (Hcfg : configOf (editModels g body)
                   = mapField "customModels" (mapItems g) (configOf body)).
    { unfold configOf, editModels. now apply get_mapField_same. }
    assert (Hmt : requestedModel (editModels g body) = requestedModel body).
    { unfold requestedModel. rewrite Hcfg.
      now rewrite optGet_mapField_other by reflexivity. }
    unfold handle.
    rewrite (route_eq rt env body Hm).
    rewrite (route_eq rt env (editModels g body)) by (now rewrite Hmsg).
    rewrite Hmt, Hmsg, Hcfg, findCustomModel_edit.
    rewrite optGet_mapField_other by reflexivity.
    pose proof (silent_findCustomModel (configOf body) (requestedModel body)) as S.
    unfold silent in S.
    destruct (findCustomModel (configOf body) (requestedModel body))
      as [cs [cm| |resp]]; cbn in S; subst cs; cbn [mmap]; try reflexivity.
    change (@pair (list call) (completion jsval) [] (Normal (g cm)))
      with (ret (g cm)).
    change (@pair (list call) (completion jsval) [] (Normal cm)) with (ret cm).
    rewrite !bind_ret.
    assert (RA : resolveApiConfig rt env (g cm) (requestedModel body)
                 = resolveApiConfig rt env cm (requestedModel body)).
    { unfold resolveApiConfig, customApiConfig. now rewrite g_truthy, g_apiConfig. }
    rewrite RA.
    pose proof (silent_resolveApiConfig rt env cm (requestedModel body)) as S'.
    unfold silent in S'.
    destruct (resolveApiConfig rt env cm (requestedModel body))
      as [cs [c| |resp]]; cbn in S'; subst cs; try reflexivity.
    change (@pair (list call) (completion ApiConfig) [] (Normal c)) with (ret c).
    rewrite !bind_ret. apply serve_blind; cbn; auto.
Qed.

End Unread.

Section Entries.

Variable rt : Runtime.
Variable env : Env.

(** X11: of a custom model the handler reads the name, the provider and
    the [apiConfig], nothing else: changing or removing any other property
    of the entries, their [modelType] for one, changes neither the answer
    nor the calls. *)
Theorem custom_model_fields_unread
        (field : string) (h : jsval -> jsval) (body : jsval) :
  jsstring_eqb (js field) (js "name") = false ->
  jsstring_eqb (js field) (js "provider") = false ->
  jsstring_eqb (js field) (js "apiConfig") = false ->
  POST rt env (Json (editModels (mapField field h) body)) = POST rt env (Json body)
  /\ POST rt env (Json (editModels (dropField field) body)) = POST rt env (Json body).
Proof.
  intros Hn Hp Ha. unfold POST. split.
  - rewrite handle_edit; auto; intros m.
    + apply nullish_mapField.
    + apply truthy_mapField.
    + now apply get_mapField_other.
    + now apply get_mapField_other.
    + now apply get_mapField_other.
  - rewrite handle_edit; auto; intros m.
    + apply nullish_dropField.
    + now destruct m.
    + now apply get_dropField_other.
    + now apply get_dropField_other.
    + now apply get_dropField_other.
Qed.

(** X12: [customModels] that is there but is no array has no [find], and
    an entry that is [null] cannot be asked for its name: in both cases
    the outermost [catch] answers with the generic 500 and nothing is
    called, whatever the rest of the request says. *)
Theorem malformed_customModels (body : jsval) :
  nullish (get body "messages") = false ->
  (nullish (get (configOf body) "customModels") = false
   /\ (forall models, get (configOf body) "customModels" <> Arr models))
  \/ (exists before entry after,
         get (configOf body) "customModels" = Arr (before ++ entry :: after)
         /\ Forall (fun m => nullish m = false
                             /\ strictEq (get m "name") (requestedModel body) = false)
                   before
         /\ nullish entry = true) ->
  POST rt env (Json body) = (JsonError 500 errRequest, []).
Proof.
  intros Hm H.
  assert (F : findCustomModel (configOf body) (requestedModel body) = throw).
  { unfold findCustomModel, optGet.
    destruct H as [[Hn Ha] | (before & entry & after & E & Hb & He)].
    - destruct (configOf body) eqn:C; try discriminate Hn.
      cbn [nullish]. destruct (get (Obj fields) "customModels") eqn:G;
        try reflexivity; try discriminate Hn. now destruct (Ha items).
    - destruct (configOf body) eqn:C; try discriminate E.
      cbn [nullish]. rewrite E. clear E.
      induction Hb as [|m before [Hn Hname] _ IH]; simpl.
      + now rewrite (readable_throws _ He).
      + now rewrite (readable_ok _ Hn), bind_ret, Hname. }
  unfold POST. now rewrite handle_of_route, (route_eq rt env _ Hm), F.
Qed.

End Entries.

(* ================================================================== *)
(** * Part IV. Further properties of the validator and the annotator *)
(* ================================================================== *)

Section Commands.

Import GeoGebraValidator.

Lemma commandNameOf_prefix (name rest : jsstring) (d : N) :
  Forall (fun c => isNameDelimiter c = false) name ->
  isNameDelimiter d = true ->
  commandNameOf (name ++ d :: rest) = name /\ commandNameOf name = name.
Proof.
  intros Hn Hd. unfold commandNameOf.
  rewrite (@split_app isNameDelimiter name rest d Hn Hd).
  rewrite (@split_plain isNameDelimiter name Hn). cbn [hd].
  assert (T : trim name = name).
  { apply trim_id. eapply Forall_impl; [| exact Hn]. apply delimiter_of_space. }
  now rewrite T.
Qed.

Lemma vocabulary_plain (w : jsstring) :
  In w VALID_COMMANDS -> Forall (fun c => isNameDelimiter c = false) w.
Proof.
  intros H.
  assert (A : forallb (forallb (fun c => negb (isNameDelimiter c))) VALID_COMMANDS
              = true) by (vm_compute; reflexivity).
  rewrite forallb_forall in A. specialize (A w H).
  rewrite forallb_forall in A. apply Forall_forall. intros c Hc.
  specialize (A c Hc). now destruct (isNameDelimiter c).
Qed.

(** X13: only the text before the first ['('], white space or [','] of a
    command is looked at.  What follows the name is never checked; a word
    of the vocabulary followed by a delimiter and anything at all is valid;
    and a command that starts with a delimiter has the empty name, which is
    unknown. *)
Theorem validateCommand_ignores_arguments :
  (forall name rest d,
      Forall (fun c => isNameDelimiter c = false) name ->
      isNameDelimiter d = true ->
      validateCommand (name ++ d :: rest) = validateCommand name)
  /\ (forall word rest d,
         In word VALID_COMMANDS ->
         isNameDelimiter d = true ->
         validateCommand (word ++ d :: rest) = mkCommandResult true None)
  /\ (forall rest d,
         isNameDelimiter d = true ->
         validateCommand (d :: rest) = mkCommandResult false (Some unknownCommand)).
Proof.
  split; [| split].
  - intros name rest d Hn Hd.
    destruct (@commandNameOf_prefix name rest d Hn Hd) as [E1 E2].
    unfold validateCommand. now rewrite E1, E2.
  - intros word rest d Hw Hd.
    destruct (@commandNameOf_prefix word rest d (@vocabulary_plain word Hw) Hd)
      as [E1 _].
    apply validateCommand_known. now rewrite E1.
  - intros rest d Hd.
    destruct (@commandNameOf_prefix [] rest d (Forall_nil _) Hd) as [E1 _].
    cbn [app] in E1. unfold validateCommand. rewrite E1. reflexivity.
Qed.

(** X13 at [Point(] followed by text that is no argument list, and at an
    assignment, whose name is the label. *)
Lemma validateCommand_ignores_arguments_witness :
  validateCommand (js "Point" ++ 0x28%N :: js "this is not, a point")
  = mkCommandResult true None
  /\ validateCommand (js "A" ++ 0x20%N :: js "= Point(1,2)")
     = validateCommand (js "A").
Proof.
  destruct validateCommand_ignores_arguments as (N & V & _). split.
  - apply V; [| reflexivity]. apply has_In. vm_compute. reflexivity.
  - apply N; [| reflexivity]. repeat constructor.
Defined.

(** X14: validating two lists of commands one after the other is
    validating them apart: the errors are those of the first followed by
    those of the second, and the whole is valid when both are. *)
Theorem validateCommands_app (first second : list jsstring) :
  errors (validateCommands (first ++ second))
  = errors (validateCommands first) ++ errors (validateCommands second)
  /\ isValid (validateCommands (first ++ second))
     = isValid (validateCommands first) && isValid (validateCommands second).
Proof.
  rewrite !validateCommands_errors, !validateCommands_isValid.
  now rewrite filter_app, map_app, forallb_app.
Qed.

End Commands.

Section Lines.

Import GeoGebraValidator.

Lemma trimStart_suffix (s : jsstring) : exists p, s = p ++ trimStart s.
Proof.
  induction s as [|c s [p IH]]; [now exists [] |]. simpl.
  destruct (isWhiteSpace c); [| now exists []].
  exists (c :: p). simpl. now rewrite <- IH.
Qed.

Lemma trimStart_idempotent (s : jsstring) : trimStart (trimStart s) = trimStart s.
Proof.
  induction s as [|c s IH]; [reflexivity |]. simpl.
  destruct (isWhiteSpace c) eqn:E; [exact IH |]. simpl. now rewrite E.
Qed.

Lemma In_trim (x : N) (s : jsstring) : In x (trim s) -> In x s.
Proof.
  unfold trim, trimEnd. intros H. apply in_rev in H.
  destruct (trimStart_suffix (rev (trimStart s))) as [p E].
  assert (H1 : In x (rev (trimStart s))) by (rewrite E; apply in_or_app; now right).
  apply in_rev in H1.
  destruct (trimStart_suffix s) as [q E']. rewrite E'. apply in_or_app. now right.
Qed.

(** A trimmed line has nothing left to trim. *)
Lemma trim_ends (s : jsstring) :
  trimStart (trim s) = trim s /\ trimEnd (trim s) = trim s.
Proof.
  unfold trim, trimEnd. set (t := trimStart s). set (u := trimStart (rev t)).
  split.
  - destruct (trimStart_suffix (rev t)) as [p E]. fold u in E.
    assert (T : t = rev u ++ rev p).
    { rewrite <- (rev_involutive t), E, rev_app_distr. reflexivity. }
    destruct (rev u) as [|x r] eqn:R; [reflexivity |].
    assert (W : isWhiteSpace x = false).
    { apply (@trimStart_head s (r ++ rev p) x). fold t. now rewrite T. }
    simpl. now rewrite W.
  - rewrite rev_involutive. unfold u. now rewrite trimStart_idempotent.
Qed.

Lemma split_pieces (sep : N -> bool) (s : jsstring) :
  Forall (Forall (fun c => sep c = false)) (split sep s).
Proof.
  induction s as [|c s IH]; simpl; [repeat constructor |].
  destruct (sep c) eqn:E; [now constructor |].
  destruct (split sep s) as [|piece pieces]; [repeat constructor; assumption |].
  inversion IH; subst. constructor; [now constructor | assumption].
Qed.

Lemma commandLines_tidy (block : jsstring) : Forall tidy (commandLines block).
Proof.
  unfold commandLines. apply Forall_forall. intros c Hc.
  apply filter_In in Hc as [Hc Hl]. apply in_map_iff in Hc as (l & <- & Hl').
  destruct (trim_ends l) as [E1 E2].
  repeat split; try assumption.
  - intros E. now rewrite E in Hl.
  - intros H. apply In_trim in H.
    pose proof (split_pieces (N.eqb LF) block) as P.
    rewrite Forall_forall in P. specialize (P l Hl').
    rewrite Forall_forall in P. specialize (P LF H).
    now rewrite N.eqb_refl in P.
Qed.

(** What holds of the lines of every block holds of every command. *)
Lemma extractCommands_Forall (P : jsstring -> Prop) :
  (forall block, Forall P (commandLines block)) ->
  forall text, Forall P (extractCommands text).
Proof.
  intros H text. remember (List.length text) as n eqn:L.
  assert (B : (List.length text <= n)%nat) by lia. clear L.
  revert text B. induction n as [|n IH]; intros text B;
    rewrite extractCommands_unfold.
  - destruct text; [constructor | simpl in B; lia].
  - destruct (exec text) as [[block rest]|] eqn:E; [| constructor].
    apply Forall_app. split; [apply H |].
    apply IH. apply exec_shrinks in E. lia.
Qed.

(** X15: whatever the text, every extracted command is one line, is not
    empty, and has no white space at its start or at its end. *)
Theorem extractCommands_tidy (text : jsstring) :
  Forall tidy (extractCommands text).
Proof. apply extractCommands_Forall. exact commandLines_tidy. Qed.

End Lines.

Section Stream.

Import GeoGebraValidator.

Lemma extractCommands_no_block (text : jsstring) :
  ~ closedBlock text -> extractCommands text = [].
Proof.
  intros H. rewrite extractCommands_unfold. pose proof (exec_spec text) as S.
  destruct (exec text) as [[block rest]|]; [| reflexivity].
  destruct S as (pre & -> & _). exfalso. apply H. now exists pre, block, rest.
Qed.

Lemma exec_None_no_block (text : jsstring) :
  exec text = None -> ~ closedBlock text.
Proof. intros E. pose proof (exec_spec text) as S. now rewrite E in S. Qed.

Lemma forallb_negb_existsb {A} (f : A -> bool) (l : list A) :
  forallb (fun x => negb (f x)) l = negb (existsb f l).
Proof.
  induction l as [|x l IH]; [reflexivity |]. simpl.
  now rewrite IH, negb_orb.
Qed.

Lemma transform_cases (c : chunk) :
  transform c
  = if hasInvalid c
    then [TextEncoder_encode
            (warningOf (map messageOf
                          (filter invalid (extractCommands (TextDecoder_decode c)))));
          c]
    else [c].
Proof.
  rewrite transform_spec. cbv zeta. unfold hasInvalid.
  rewrite forallb_negb_existsb. now destruct (existsb _ _).
Qed.

(** X16: a stream none of whose chunks holds an invalid command comes out
    as it went in.  In particular a stream none of whose chunks holds a
    closed block does: a block that is opened in one chunk and closed in
    the next is never checked, whatever its commands. *)
Theorem pipeThrough_passthrough (body : list chunk) :
  (Forall (fun c => hasInvalid c = false) body -> pipeThrough body = body)
  /\ (Forall (fun c => ~ closedBlock (TextDecoder_decode c)) body ->
      pipeThrough body = body).
Proof.
  assert (A : Forall (fun c => hasInvalid c = false) body -> pipeThrough body = body).
  { unfold pipeThrough. induction 1 as [|c body Hc _ IH]; [reflexivity |].
    simpl. now rewrite transform_cases, Hc, IH. }
  split; [exact A |]. intros H. apply A.
  eapply Forall_impl; [| exact H]. intros c Hc. unfold hasInvalid.
  now rewrite (extractCommands_no_block Hc).
Qed.

(** X17: the annotator only adds chunks.  The chunks of the body come out
    unchanged and in their order, among the warnings; there is exactly one
    warning for each chunk that holds an invalid command; and the chunks
    are treated one by one, with nothing kept from one to the next. *)
Theorem pipeThrough_keeps_body (body : list chunk) :
  subsequence body (pipeThrough body)
  /\ List.length (pipeThrough body)
     = (List.length body + List.length (filter hasInvalid body))%nat
  /\ (forall first second,
         pipeThrough (first ++ second) = pipeThrough first ++ pipeThrough second).
Proof.
  unfold pipeThrough. split; [| split].
  - induction body as [|c body IH]; [constructor |]. simpl.
    rewrite transform_cases. destruct (hasInvalid c); simpl.
    + apply subsequence_skip. now apply subsequence_keep.
    + now apply subsequence_keep.
  - induction body as [|c body IH]; [reflexivity |]. simpl.
    rewrite length_app, IH, transform_cases.
    destruct (hasInvalid c); simpl; lia.
  - intros first second. apply flat_map_app.
Qed.

(** X18: for a chunk that holds invalid commands, however many, the
    annotator emits the UTF-8 encoding of one warning and then the chunk.
    The warning is the header, the error texts of the invalid commands in
    their order, one per line, and the footer. *)
Theorem transform_warns (c : chunk) :
  hasInvalid c = true ->
  let rejected := filter invalid (extractCommands (TextDecoder_decode c)) in
  transform c
  = [TextEncoder_encode
       (warningHeader ++ join [LF] (map messageOf rejected) ++ warningFooter); c]
  /\ rejected <> []
  /\ errors (validateCommands (extractCommands (TextDecoder_decode c)))
     = map messageOf rejected.
Proof.
  intros H rejected. rewrite transform_cases, H. split; [| split].
  - unfold warningOf, warningHeader, warningFooter.
    now rewrite <- !app_assoc.
  - unfold rejected, hasInvalid in *. apply existsb_exists in H as (x & Hx & Ix).
    intros E. assert (I : In x (filter invalid (extractCommands (TextDecoder_decode c))))
      by (apply filter_In; auto).
    now rewrite E in I.
  - apply validateCommands_errors.
Qed.

End Stream.

(** X16 at a block split over two chunks: its command is unknown, and
    both chunks pass. *)
Lemma pipeThrough_passthrough_witness :
  pipeThrough [Sample.bytes "```geogebra" ++ [x0a] ++ Sample.bytes "Bar(";
               Sample.bytes "1)" ++ [x0a] ++ Sample.bytes "```"]
  = [Sample.bytes "```geogebra" ++ [x0a] ++ Sample.bytes "Bar(";
     Sample.bytes "1)" ++ [x0a] ++ Sample.bytes "```"].
Proof.
  apply (proj2 (pipeThrough_passthrough _)).
  constructor; [apply exec_None_no_block; vm_compute; reflexivity |].
  constructor; [apply exec_None_no_block; vm_compute; reflexivity |].
  constructor.
Defined.

(** X18 at the sample chunk with the unknown command [Bar]. *)
Lemma transform_warns_witness :
  transform Sample.barChunk
  = [TextEncoder_encode
       (warningHeader ++ join [LF] [messageOf (js "Bar(1)")] ++ warningFooter);
     Sample.barChunk].
Proof.
  refine (proj1 (@transform_warns Sample.barChunk _)).
  vm_compute. reflexivity.
Defined.

(* ------------------------------------------------------------------ *)
(** ** The further properties of the handler at sample requests *)

(** X1 at the request with messages only, the OpenAI key set and a runtime
    in which nothing throws. *)
Lemma POST_outcomes_witness :
  POST Sample.runtime Cases.openaiOnly (Json Cases.bare)
  = (Streamed (pipeThrough Cases.answer),
     [Create (mkProvider OpenAI (Str (js "sk-1")) (Str (js "https://api.openai.com")));
      Model (mkProvider OpenAI (Str (js "sk-1")) (Str (js "https://api.openai.com")))
            (Str (js "gpt-4o"));
      StreamText (mkProvider OpenAI (Str (js "sk-1")) (Str (js "https://api.openai.com")))
                 (Str (js "gpt-4o")) (Str defaultSystemPrompt) Sample.userMessages]).
Proof.
  assert (R : route Sample.runtime Cases.openaiOnly (Json Cases.bare)
              = ret Cases.bareResolved) by (vm_compute; reflexivity).
  refine (proj2 (proj2 (proj2
            (@POST_outcomes Sample.runtime Cases.openaiOnly (Json Cases.bare)
               Cases.bareResolved OpenAI R _ _)))
            Cases.answer _ _ _); vm_compute; reflexivity.
Defined.

(** X3 at the request with messages only and an empty environment. *)
Lemma default_request_witness :
  POST Sample.runtime [] (Json Cases.bare) = (JsonError 400 errMissingKey, []).
Proof.
  refine (proj1 (proj2 (@default_request Sample.runtime [] Cases.bare _ _)) _);
    vm_compute; reflexivity.
Defined.

(** X4 at [claude-3-sonnet]: the Anthropic factory gets the OpenAI key
    and domain. *)
Lemma unknown_identifier_gets_OpenAI_preset_witness :
  exists rest,
    snd (POST Sample.runtime Cases.openaiOnly
              (Json (Sample.withModelType "claude-3-sonnet")))
    = Create (mkProvider Anthropic (Str (js "sk-1"))
                         (Str (js "https://api.openai.com")))
        :: rest.
Proof.
  refine (@unknown_identifier_gets_OpenAI_preset Sample.runtime Cases.openaiOnly
            (Sample.withModelType "claude-3-sonnet") (js "claude-3-sonnet")
            (js "sk-1") _ _ _ _ _ _ _).
  - vm_compute; reflexivity.
  - vm_compute; reflexivity.
  - vm_compute; reflexivity.
  - intros H. apply has_In in H. vm_compute in H. discriminate H.
  - intros H. apply has_In in H. vm_compute in H. discriminate H.
  - vm_compute; reflexivity.
  - vm_compute. discriminate.
Defined.

(** X5 at the identifier [toString], with every key set. *)
Lemma prototype_identifier_has_no_key_witness :
  POST Sample.runtime Cases.everyKey (Json (Sample.withModelType "toString"))
  = (JsonError 400 errMissingKey, []).
Proof.
  refine (@prototype_identifier_has_no_key Sample.runtime Cases.everyKey
            (Sample.withModelType "toString") (js "toString")
            _ _ _ _).
  - vm_compute; reflexivity.
  - vm_compute; reflexivity.
  - vm_compute; reflexivity.
  - apply has_In. vm_compute. reflexivity.
Defined.


(** X7 at a custom model with an empty key, every key of the environment
    being set. *)
Lemma custom_model_without_key_witness :
  POST Sample.runtime Cases.everyKey (Json Cases.keyless)
  = (JsonError 400
       (if strictEq (requestedModel Cases.keyless) (Str (js "deepseek-free"))
        then errMissingOpenRouterKey else errMissingKey),
     [])
  /\ strictEq (requestedModel Cases.keyless) (Str (js "deepseek-free")) = false.
Proof.
  split; [| vm_compute; reflexivity].
  apply (@custom_model_without_key Sample.runtime Cases.everyKey
           Cases.keyless Cases.keylessModel).
  - vm_compute; reflexivity.
  - split; vm_compute; reflexivity.
  - vm_compute; reflexivity.
  - vm_compute; reflexivity.
Defined.

(** X8 at the placeholder request under two environments that agree on
    [OPENROUTER_API_KEY] only. *)
Lemma custom_model_env_isolation_witness :
  POST Sample.runtime Cases.everyKey (Json (Sample.placeholderRequest Null))
  = POST Sample.runtime [("OPENROUTER_API_KEY"%string, js "sk-test")]
         (Json (Sample.placeholderRequest Null)).
Proof.
  refine (@custom_model_env_isolation Sample.runtime Cases.everyKey
            [("OPENROUTER_API_KEY"%string, js "sk-test")]
            (Sample.placeholderRequest Null) (Sample.placeholderModel Null)
            _ _ _).
  - vm_compute; reflexivity.
  - split; vm_compute; reflexivity.
  - left. vm_compute; reflexivity.
Defined.

(** X9 at the placeholder request: the key of the environment goes to
    the domain named in the request. *)
Lemma placeholder_key_goes_to_requested_domain_witness :
  exists rest,
    snd (POST Sample.runtime Cases.everyKey (Json (Sample.placeholderRequest Null)))
    = Create (mkProvider Anthropic (Str (js "sk-test"))
                         (Sample.text "https://openrouter.ai"))
        :: rest.
Proof.
  refine (@placeholder_key_goes_to_requested_domain Sample.runtime Cases.everyKey
            (Sample.placeholderRequest Null) (Sample.placeholderModel Null)
            (Sample.text "https://openrouter.ai") (js "sk-test")
            _ _ _ _ _ _ _).
  - vm_compute; reflexivity.
  - split; vm_compute; reflexivity.
  - vm_compute; reflexivity.
  - vm_compute; reflexivity.
  - vm_compute; reflexivity.
  - vm_compute; reflexivity.
  - vm_compute. discriminate.
Defined.

(** X10 at the model construction of the placeholder request: it is for
    the name [x] of the custom model, not for its [modelType]. *)
Lemma upstream_arguments_witness :
  exists body,
    Json (Sample.placeholderRequest Null) = Json body
    /\ Sample.text "x" = requestedModel body.
Proof.
  refine (@upstream_arguments Sample.runtime Cases.everyKey
            (Json (Sample.placeholderRequest Null))
            (Model (mkProvider Anthropic (Str (js "sk-test"))
                               (Sample.text "https://openrouter.ai"))
                   (Sample.text "x")) _).
  vm_compute. right. left. reflexivity.
Defined.

(** X11 at the placeholder request with the [modelType] of its custom
    model replaced by [null]. *)
Lemma custom_model_fields_unread_witness :
  POST Sample.runtime Cases.everyKey
       (Json (editModels (mapField "modelType" (fun _ => Null))
                         (Sample.placeholderRequest Null)))
  = POST Sample.runtime Cases.everyKey (Json (Sample.placeholderRequest Null)).
Proof.
  refine (proj1 (@custom_model_fields_unread Sample.runtime Cases.everyKey
                   "modelType" (fun _ => Null) (Sample.placeholderRequest Null)
                   _ _ _)); vm_compute; reflexivity.
Defined.

(** X12 at custom models that are a string. *)
Lemma malformed_customModels_witness :
  POST Sample.runtime Cases.everyKey (Json Cases.stringModels)
  = (JsonError 500 errRequest, []).
Proof.
  refine (@malformed_customModels Sample.runtime Cases.everyKey
            Cases.stringModels _ _).
  - vm_compute; reflexivity.
  - left. split; [vm_compute; reflexivity | intros models; vm_compute; discriminate].
Defined.

(* ================================================================== *)
(** * Part V. Properties of the configuration dialog *)
(* ================================================================== *)

Section Saving.

Import Dialog.

Lemma find_map_withPlaceholder (identifier : jsstring) (models : list ModelConfig) :
  find (fun model => jsstring_eqb (name model) identifier) (map withPlaceholder models)
  = option_map withPlaceholder
      (find (fun model => jsstring_eqb (name model) identifier) models).
Proof.
  assert (N : forall m, name (withPlaceholder m) = name m).
  { intros m. unfold withPlaceholder. now destruct (jsstring_eqb _ _). }
  induction models as [|m models IH]; [reflexivity |]. simpl.
  rewrite N. destruct (jsstring_eqb (name m) identifier); [reflexivity | exact IH].
Qed.

(** X19: [handleSave] refuses exactly when the selected custom model has an
    empty key and is not the default free model.  Then nothing is stored
    and nothing is called, the error names the provider of that model, and
    the model tab is shown.  In every other case the configuration is
    stored once, [onSave] is called when given, the dialog is set to close,
    and the error is cleared. *)
Theorem handleSave_refuses_or_stores (onSave : bool) (s : State) :
  let refused :=
    exists model,
      selectedModel (localConfig s) = Some model
      /\ key (apiConfig model) = []
      /\ isFreePreset model = false in
  (refused ->
   exists model,
     selectedModel (localConfig s) = Some model
     /\ handleSave onSave s
        = (mkState (localConfig s)
                   (Some (provider model ++ js " API Key 是必填项"))
                   (saveSuccess s) (js "model") (showModelForm s)
                   (newModel s) (editingModelIndex s),
           []))
  /\ (~ refused ->
      exists config,
        snd (handleSave onSave s)
        = UpdateConfig config :: (if onSave then [OnSave] else []) ++ [CloseLater]
        /\ fst (handleSave onSave s)
           = mkState (localConfig s) None true (activeTab s) (showModelForm s)
                     (newModel s) (editingModelIndex s)).
Proof.
  cbv zeta. unfold handleSave. split.
  - intros (model & -> & K & F). exists model. split; [reflexivity |].
    now rewrite K, F.
  - intros R. destruct (selectedModel (localConfig s)) as [model|];
      [| eexists; split; reflexivity].
    destruct (key (apiConfig model)) as [|c k] eqn:K; cbn [List.length Nat.eqb];
      [| eexists; split; reflexivity].
    destruct (isFreePreset model) eqn:F; [eexists; split; reflexivity |].
    exfalso. apply R. now exists model.
Qed.

(** What [handleSave] stores. *)
Lemma handleSave_stored (onSave : bool) (s : State) (config : ConfigSettings) :
  In (UpdateConfig config) (snd (handleSave onSave s)) ->
  modelType config = modelType (localConfig s)
  /\ systemPrompt config = systemPrompt (localConfig s)
  /\ Forall2 (fun stored model =>
                stored = model
                \/ (name model = js "deepseek-free"
                    /\ stored
                       = mkModelConfig (name model) (provider model) (model_type model)
                           (mkApiConfig (domain (apiConfig model))
                                        (path (apiConfig model))
                                        OPENROUTER_API_KEY_PLACEHOLDER)))
             (customModels config) (customModels (localConfig s))
  /\ selectedHasKey config.
Proof.
  assert (Same : forall l : list ModelConfig,
             Forall2 (fun stored model =>
                        stored = model
                        \/ (name model = js "deepseek-free"
                            /\ stored
                               = mkModelConfig (name model) (provider model)
                                   (model_type model)
                                   (mkApiConfig (domain (apiConfig model))
                                                (path (apiConfig model))
                                                OPENROUTER_API_KEY_PLACEHOLDER)))
                     l l).
  { induction l; constructor; auto. }
  assert (Unsaved : forall rest : list effect,
             In (UpdateConfig config)
                (UpdateConfig (localConfig s) :: rest) ->
             (forall e, In e rest -> e = OnSave \/ e = CloseLater) ->
             config = localConfig s).
  { intros rest [[= <-] | H] Hr; [reflexivity |].
    destruct (Hr _ H); discriminate. }
  assert (Tail : forall e, In e ((if onSave then [OnSave] else []) ++ [CloseLater]) ->
                           e = OnSave \/ e = CloseLater).
  { intros e H. destruct onSave; cbn in H; intuition. }
  unfold handleSave, selectedHasKey.
  destruct (selectedModel (localConfig s)) as [model|] eqn:Sel.
  - destruct (key (apiConfig model)) as [|c k] eqn:K; cbn [List.length Nat.eqb].
    + destruct (isFreePreset model) eqn:F; [| intros []].
      unfold save. cbn [snd]. intros [[= <-] | H];
        [| destruct (Tail _ H); discriminate].
      cbn [modelType systemPrompt customModels]. repeat split.
      * clear. induction (customModels (localConfig s)) as [|m l IH];
          constructor; [| exact IH].
        unfold withPlaceholder.
        destruct (jsstring_eqb (name m) (js "deepseek-free")) eqn:E; [| now left].
        right. apply jsstring_eqb_eq in E. auto.
      * unfold selectedModel in *. cbn [modelType customModels].
        rewrite find_map_withPlaceholder, Sel. cbn [option_map].
        unfold isFreePreset in F. rewrite !andb_true_iff in F.
        destruct F as [[[F _] _] _]. unfold withPlaceholder. rewrite F.
        cbn. discriminate.
    + unfold save. cbn [snd]. intros H. apply Unsaved in H; [| exact Tail].
      subst config. repeat split; [apply Same |]. rewrite Sel, K. discriminate.
  - unfold save. cbn [snd]. intros H. apply Unsaved in H; [| exact Tail].
    subst config. repeat split; [apply Same |]. now rewrite Sel.
Qed.

(** X20: what [handleSave] stores.  The stored configuration has the
    selection, the system prompt and the models of the form, in their
    order and with their names; a model differs from the one of the form
    only if it is named ["deepseek-free"], and then only by its key, which
    is the placeholder; and the selected custom model, if there is one,
    has a key that is not empty. *)
Theorem handleSave_stores_keyed (onSave : bool) (s : State) (config : ConfigSettings) :
  In (UpdateConfig config) (snd (handleSave onSave s)) ->
  modelType config = modelType (localConfig s)
  /\ systemPrompt config = systemPrompt (localConfig s)
  /\ Forall2 (fun stored model =>
                stored = model
                \/ (name model = js "deepseek-free"
                    /\ stored
                       = mkModelConfig (name model) (provider model) (model_type model)
                           (mkApiConfig (domain (apiConfig model))
                                        (path (apiConfig model))
                                        OPENROUTER_API_KEY_PLACEHOLDER)))
             (customModels config) (customModels (localConfig s))
  /\ selectedHasKey config.
Proof. exact (@handleSave_stored onSave s config). Qed.

End Saving.

Section Rows.

Import Dialog.

Lemma config_eta (c : ConfigSettings) :
  mkConfigSettings (modelType c) (systemPrompt c) (customModels c) = c.
Proof. now destruct c. Qed.

Lemma splice1_same (index : nat) (m : ModelConfig) (models : list ModelConfig) :
  nth_error models index = Some m -> splice1 index m models = models.
Proof.
  unfold splice1. revert index.
  induction models as [|x models IH]; intros [|index]; simpl; try discriminate.
  - now intros [= ->].
  - intros H. f_equal. now apply IH.
Qed.

Lemma splice1_nth (index : nat) (m : ModelConfig) (models : list ModelConfig) :
  (index < List.length models)%nat ->
  List.length (splice1 index m models) = List.length models
  /\ nth_error (splice1 index m models) index = Some m
  /\ (forall j, j <> index ->
                nth_error (splice1 index m models) j = nth_error models j).
Proof.
  unfold splice1. revert index.
  induction models as [|x models IH]; intros index L; [simpl in L; lia |].
  destruct index as [|index].
  - cbn [firstn skipn app List.length nth_error].
    split; [reflexivity | split; [reflexivity |]].
    intros [|j] H; [contradiction | reflexivity].
  - cbn [List.length] in L. destruct (IH index) as (A & B & C); [lia |].
    change (firstn (S index) (x :: models) ++ m :: skipn (S (S index)) (x :: models))
      with (x :: (firstn index models ++ m :: skipn (S index) models)).
    cbn [List.length nth_error].
    split; [now rewrite A | split; [exact B |]].
    intros [|j] H; [reflexivity |]. cbn [nth_error]. apply C. lia.
Qed.

Lemma splice1_beyond (index : nat) (m : ModelConfig) (models : list ModelConfig) :
  (List.length models <= index)%nat -> splice1 index m models = models ++ [m].
Proof.
  intros L. unfold splice1.
  rewrite firstn_all2 by lia. now rewrite skipn_all2 by lia.
Qed.

Lemma filterIndex_ext (keep keep' : nat -> bool) (from : nat) (models : list ModelConfig) :
  (forall i, (from <= i)%nat -> keep i = keep' i) ->
  filterIndex keep from models = filterIndex keep' from models.
Proof.
  revert from. induction models as [|m models IH]; intros from H; [reflexivity |].
  simpl. rewrite (H from) by lia. rewrite (IH (S from)) by (intros i Hi; apply H; lia).
  reflexivity.
Qed.

Lemma filterIndex_all (keep : nat -> bool) (from : nat) (models : list ModelConfig) :
  (forall i, (from <= i)%nat -> keep i = true) ->
  filterIndex keep from models = models.
Proof.
  revert from. induction models as [|m models IH]; intros from H; [reflexivity |].
  simpl. rewrite (H from) by lia. now rewrite (IH (S from)) by (intros i Hi; apply H; lia).
Qed.

(** Filtering out one index removes the element at that index. *)
Lemma filterIndex_remove (from k : nat) (models : list ModelConfig) :
  filterIndex (fun i => negb (i =? from + k)%nat) from models
  = firstn k models ++ skipn (S k) models.
Proof.
  revert from k. induction models as [|m models IH]; intros from k.
  - now destruct k.
  - simpl filterIndex. destruct k as [|k].
    + rewrite Nat.add_0_r, Nat.eqb_refl. cbn [negb firstn skipn app].
      apply filterIndex_all. intros i Hi.
      apply negb_true_iff, Nat.eqb_neq. lia.
    + replace (from =? from + S k)%nat with false
        by (symmetry; apply Nat.eqb_neq; lia).
      change (firstn (S k) (m :: models) ++ skipn (S (S k)) (m :: models))
        with (m :: (firstn k models ++ skipn (S k) models)).
      cbn [negb]. f_equal.
      transitivity (filterIndex (fun i => negb (i =? S from + k)%nat) (S from) models).
      * apply filterIndex_ext. intros i _. now rewrite Nat.add_succ_r.
      * apply IH.
Qed.

Lemma nth_error_remove (index : nat) (models : list ModelConfig) (j : nat) :
  nth_error (firstn index models ++ skipn (S index) models) j
  = if (j <? index)%nat then nth_error models j else nth_error models (S j).
Proof.
  revert index j. induction models as [|m models IH]; intros index j.
  - destruct index, j; simpl; try reflexivity; now destruct (_ <? _)%nat.
  - destruct index as [|index]; [reflexivity |].
    destruct j as [|j]; [reflexivity |].
    change (nth_error (firstn index models ++ skipn (S index) models) j
            = if (S j <? S index)%nat then nth_error models j
              else nth_error models (S j)).
    rewrite IH. reflexivity.
Qed.

(** X21: the button that adds or updates a model.  With no row being
    edited the model of the form is appended; with row [index] being
    edited it takes the place of that row, the other rows and the number
    of rows staying as they are (and it is appended when there is no such
    row any more).  The selection and the system prompt are kept, and the
    form is emptied and closed. *)
Theorem submitModel_spec (s : State) :
  let old := customModels (localConfig s) in
  let new := customModels (localConfig (submitModel s)) in
  modelType (localConfig (submitModel s)) = modelType (localConfig s)
  /\ systemPrompt (localConfig (submitModel s)) = systemPrompt (localConfig s)
  /\ newModel (submitModel s) = blankModel
  /\ showModelForm (submitModel s) = false
  /\ editingModelIndex (submitModel s) = None
  /\ (editingModelIndex s = None -> new = old ++ [newModel s])
  /\ (forall index,
         editingModelIndex s = Some index ->
         (index < List.length old)%nat ->
         List.length new = List.length old
         /\ nth_error new index = Some (newModel s)
         /\ (forall j, j <> index -> nth_error new j = nth_error old j))
  /\ (forall index,
         editingModelIndex s = Some index ->
         (List.length old <= index)%nat ->
         new = old ++ [newModel s]).
Proof.
  cbv zeta. unfold submitModel.
  cbn [localConfig modelType systemPrompt customModels newModel showModelForm
       editingModelIndex].
  split; [reflexivity |]. split; [reflexivity |]. split; [reflexivity |].
  split; [reflexivity |]. split; [reflexivity |].
  split; [| split].
  - now intros ->.
  - intros index E L. rewrite E. now apply splice1_nth.
  - intros index E L. rewrite E. now apply splice1_beyond.
Qed.

(** X22: opening a row for editing and submitting the form as it was
    loaded changes nothing in the configuration. *)
Theorem edit_then_submit (index : nat) (s edited : State) :
  editModel index s = Some edited ->
  localConfig (submitModel edited) = localConfig s
  /\ newModel edited = nth index (customModels (localConfig s)) blankModel
  /\ showModelForm edited = true.
Proof.
  unfold editModel.
  destruct (nth_error (customModels (localConfig s)) index) as [m|] eqn:E;
    [| discriminate].
  intros [= <-]. unfold submitModel. cbn.
  rewrite (@splice1_same _ _ _ E), config_eta.
  repeat split. symmetry. now apply nth_error_nth.
Qed.

(** X23: deleting a row removes that row and no other, the rows below it
    moving up by one; the selection becomes ["gpt-4o"] exactly when it was
    the name of the deleted row; the system prompt, the form and the index
    of the row being edited are left as they are. *)
Theorem deleteModel_spec (index : nat) (s deleted : State) :
  deleteModel index s = Some deleted ->
  let old := customModels (localConfig s) in
  let new := customModels (localConfig deleted) in
  exists model,
    nth_error old index = Some model
    /\ new = firstn index old ++ skipn (S index) old
    /\ S (List.length new) = List.length old
    /\ (forall j, nth_error new j
                  = if (j <? index)%nat then nth_error old j
                    else nth_error old (S j))
    /\ modelType (localConfig deleted)
       = (if jsstring_eqb (modelType (localConfig s)) (name model)
          then js "gpt-4o" else modelType (localConfig s))
    /\ systemPrompt (localConfig deleted) = systemPrompt (localConfig s)
    /\ newModel deleted = newModel s
    /\ editingModelIndex deleted = editingModelIndex s.
Proof.
  unfold deleteModel.
  destruct (nth_error (customModels (localConfig s)) index) as [m|] eqn:E;
    [| discriminate].
  intros [= <-]. cbn. exists m.
  assert (R := @filterIndex_remove 0 index (customModels (localConfig s))).
  cbn [Nat.add] in R. rewrite R.
  repeat split.
  - assert (L : (index < List.length (customModels (localConfig s)))%nat)
      by (apply nth_error_Some; congruence).
    rewrite length_app, length_firstn, length_skipn. lia.
  - intros j. apply nth_error_remove.
Qed.

(** X24: the index of the row being edited is not moved by deleting a row
    above it.  After opening row [index] for editing, deleting a row above
    it and submitting the form as it was loaded, the edited model is at
    its new place [index - 1] and a second copy of it is at [index], where
    the model that followed it had moved to: that model is replaced. *)
Theorem stale_edit_index (index above : nat) (s edited deleted : State) :
  editModel index s = Some edited ->
  deleteModel above edited = Some deleted ->
  (above < index)%nat ->
  (S index < List.length (customModels (localConfig s)))%nat ->
  let old := customModels (localConfig s) in
  let new := customModels (localConfig (submitModel deleted)) in
  nth_error new (index - 1) = nth_error old index
  /\ nth_error new index = nth_error old index
  /\ (forall j, (index < j)%nat -> nth_error new j = nth_error old (S j))
  /\ S (List.length new) = List.length old.
Proof.
  intros He Hd La Li. cbv zeta.
  unfold editModel in He.
  destruct (nth_error (customModels (localConfig s)) index) as [m|] eqn:E;
    [| discriminate].
  injection He as <-.
  unfold deleteModel in Hd. cbn in Hd.
  destruct (nth_error (customModels (localConfig s)) above) as [a|] eqn:Ea;
    [| discriminate].
  injection Hd as <-. unfold submitModel. cbn.
  assert (R := @filterIndex_remove 0 above (customModels (localConfig s))).
  cbn [Nat.add] in R. rewrite R.
  set (old := customModels (localConfig s)) in *.
  set (moved := firstn above old ++ skipn (S above) old).
  assert (Lm : S (List.length moved) = List.length old).
  { unfold moved. rewrite length_app, length_firstn, length_skipn. lia. }
  destruct (@splice1_nth index m moved) as (A & B & C); [lia |].
  repeat split.
  - rewrite C by lia. unfold moved. rewrite nth_error_remove.
    replace (index - 1 <? above)%nat with false
      by (symmetry; apply Nat.ltb_ge; lia).
    replace (S (index - 1)) with index by lia. exact E.
  - exact B.
  - intros j Hj. rewrite C by lia. unfold moved. rewrite nth_error_remove.
    replace (j <? above)%nat with false by (symmetry; apply Nat.ltb_ge; lia).
    reflexivity.
  - now rewrite A.
Qed.

End Rows.

(* ================================================================== *)
(** * Part VI. The dialog and the handler together *)
(* ================================================================== *)

Section Stored.

Variable rt : Runtime.
Variable env : Env.

Lemma jsonOfModel_fields (m : Dialog.ModelConfig) :
  get (jsonOfModel m) "name" = Str (Dialog.name m)
  /\ get (jsonOfModel m) "provider" = Str (Dialog.provider m)
  /\ get (get (jsonOfModel m) "apiConfig") "domain"
     = Str (Dialog.domain (Dialog.apiConfig m))
  /\ get (get (jsonOfModel m) "apiConfig") "key"
     = Str (Dialog.key (Dialog.apiConfig m))
  /\ nullish (get (jsonOfModel m) "apiConfig") = false.
Proof. repeat split. Qed.

Lemma bodyOf_fields (messageList : jsval) (c : Dialog.ConfigSettings) :
  get (bodyOf messageList c) "messages" = messageList
  /\ configOf (bodyOf messageList c) = jsonOfConfig c
  /\ get (jsonOfConfig c) "modelType" = Str (Dialog.modelType c)
  /\ get (jsonOfConfig c) "customModels"
     = Arr (map jsonOfModel (Dialog.customModels c)).
Proof. repeat split. Qed.

(** [find] of the handler, on the JSON of the models of the dialog, finds
    what [find] of the dialog finds. *)
Lemma Array_find_json (identifier : jsstring) (models : list Dialog.ModelConfig) :
  Array_find (Str identifier) (map jsonOfModel models)
  = ret (match find (fun model => jsstring_eqb (Dialog.name model) identifier) models with
         | Some model => jsonOfModel model
         | None => Undefined
         end).
Proof.
  induction models as [|m models IH]; [reflexivity |].
  cbn [map Array_find find].
  rewrite readable_ok, bind_ret by reflexivity.
  destruct (jsonOfModel_fields m) as (N & _). rewrite N. cbn [strictEq].
  destruct (jsstring_eqb (Dialog.name m) identifier); [reflexivity | exact IH].
Qed.

Lemma bodyOf_selects (messageList : jsval) (c : Dialog.ConfigSettings)
      (model : Dialog.ModelConfig) :
  Dialog.modelType c <> [] ->
  Dialog.selectedModel c = Some model ->
  requestedModel (bodyOf messageList c) = Str (Dialog.modelType c)
  /\ selects (bodyOf messageList c) (jsonOfModel model).
Proof.
  intros Hn Hs.
  destruct (bodyOf_fields messageList c) as (_ & C & T & L).
  assert (Q : requestedModel (bodyOf messageList c) = Str (Dialog.modelType c)).
  { unfold requestedModel, optGet. rewrite C. cbn [jsonOfConfig nullish].
    fold (jsonOfConfig c). rewrite T. unfold orElse.
    destruct (Dialog.modelType c); [contradiction | reflexivity]. }
  split; [exact Q |]. split; [| reflexivity].
  rewrite Q, C. unfold findCustomModel, optGet. cbn [jsonOfConfig nullish].
  fold (jsonOfConfig c). rewrite L, Array_find_json.
  unfold Dialog.selectedModel in Hs. now rewrite Hs.
Qed.

(** X25: a request whose [configSettings] is a configuration that
    [handleSave] has stored, with a selection that is a custom model, is
    never answered with the error about a missing key.  The factory of the
    provider of that model is called with the key and the domain of the
    model; or, when the key is the placeholder, with [OPENROUTER_API_KEY],
    the answer being the 400 that names the variable when it is unset. *)
Theorem stored_selection_is_served
        (onSave : bool) (s : Dialog.State) (config : Dialog.ConfigSettings)
        (model : Dialog.ModelConfig) (messageList : jsval) :
  In (Dialog.UpdateConfig config) (snd (Dialog.handleSave onSave s)) ->
  Dialog.selectedModel config = Some model ->
  Dialog.modelType config <> [] ->
  nullish messageList = false ->
  let request := Json (bodyOf messageList config) in
  let factory := adapterOfProvider (Str (Dialog.provider model)) in
  let baseURL :=
    Str (Dialog.domain (Dialog.apiConfig model)) ||| Str (js "https://api.openai.com") in
  (Dialog.key (Dialog.apiConfig model) <> OPENROUTER_API_KEY_PLACEHOLDER ->
   exists rest,
     snd (POST rt env request)
     = Create (mkProvider factory (Str (Dialog.key (Dialog.apiConfig model))) baseURL)
         :: rest)
  /\ (Dialog.key (Dialog.apiConfig model) = OPENROUTER_API_KEY_PLACEHOLDER ->
      (truthy (getenv env "OPENROUTER_API_KEY") = false ->
       POST rt env request = (JsonError 400 errOpenRouterUnset, []))
      /\ (truthy (getenv env "OPENROUTER_API_KEY") = true ->
          exists rest,
            snd (POST rt env request)
            = Create (mkProvider factory (getenv env "OPENROUTER_API_KEY") baseURL)
                :: rest)).
Proof.
  intros Hu Hs Hn Hm. cbv zeta.
  assert (K : Dialog.key (Dialog.apiConfig model) <> []).
  { destruct (@handleSave_stored onSave s config Hu) as (_ & _ & _ & H).
    unfold Dialog.selectedHasKey in H. now rewrite Hs in H. }
  destruct (@bodyOf_selects messageList config model Hn Hs) as [Q Sel].
  destruct (bodyOf_fields messageList config) as (M & _).
  assert (Hm' : nullish (get (bodyOf messageList config) "messages") = false)
    by now rewrite M.
  assert (R := @route_custom rt env _ _ Hm' Sel).
  destruct (jsonOfModel_fields model) as (_ & P & D & Ky & A).
  assert (Ad : forall t, selectAdapter (jsonOfModel model) t
                         = Some (adapterOfProvider (Str (Dialog.provider model)))).
  { intros t. unfold selectAdapter, adapterOfProvider. rewrite P.
    change (truthy (jsonOfModel model)) with true. cbv iota.
    destruct (strictEq _ _); [reflexivity |]. now destruct (strictEq _ _). }
  assert (Dm : optGet (get (jsonOfModel model) "apiConfig") "domain"
               = Str (Dialog.domain (Dialog.apiConfig model))).
  { unfold optGet. now rewrite A, D. }
  assert (Kv : get (get (jsonOfModel model) "apiConfig") "key" ||| Str (js "")
               = Str (Dialog.key (Dialog.apiConfig model))).
  { rewrite Ky. unfold orElse.
    destruct (Dialog.key (Dialog.apiConfig model)); [contradiction | reflexivity]. }
  assert (C : customApiConfig env (jsonOfModel model)
              = if jsstring_eqb (Dialog.key (Dialog.apiConfig model))
                                OPENROUTER_API_KEY_PLACEHOLDER
                then if negb (truthy (getenv env "OPENROUTER_API_KEY"))
                     then respond (JsonError 400 errOpenRouterUnset)
                     else ret (mkApiConfig
                                 (Str (Dialog.domain (Dialog.apiConfig model))
                                  ||| Str (js "https://api.openai.com"))
                                 (optGet (get (jsonOfModel model) "apiConfig") "path"
                                  ||| Str (js "/v1/chat/completions"))
                                 (getenv env "OPENROUTER_API_KEY" ||| Str (js "")))
                else ret (mkApiConfig
                            (Str (Dialog.domain (Dialog.apiConfig model))
                             ||| Str (js "https://api.openai.com"))
                            (optGet (get (jsonOfModel model) "apiConfig") "path"
                             ||| Str (js "/v1/chat/completions"))
                            (Str (Dialog.key (Dialog.apiConfig model))))).
  { unfold customApiConfig. cbv zeta.
    rewrite (readable_ok _ A), bind_ret, Kv, Dm. cbn [strictEq].
    destruct (jsstring_eqb _ _); [| reflexivity].
    destruct (negb _); reflexivity. }
  rewrite C in R. split.
  - intros Hp.
    replace (jsstring_eqb (Dialog.key (Dialog.apiConfig model))
                          OPENROUTER_API_KEY_PLACEHOLDER) with false in R
      by (symmetry; apply not_true_is_false; intros E;
          apply jsstring_eqb_eq in E; contradiction).
    rewrite bind_ret in R.
    rewrite (@POST_of_route rt env _ _ R).
    match type of R with
    | _ = ret ?r =>
        destruct (@serve_calls_head rt r
                    (adapterOfProvider (Str (Dialog.provider model))))
          as [rest Hrest]; [| apply Ad |]
    end.
    + cbn [apiConfig key truthy].
      destruct (Dialog.key (Dialog.apiConfig model)); [contradiction | reflexivity].
    + exists rest. exact Hrest.
  - intros Hp.
    replace (jsstring_eqb (Dialog.key (Dialog.apiConfig model))
                          OPENROUTER_API_KEY_PLACEHOLDER) with true in R
      by (symmetry; apply jsstring_eqb_eq; exact Hp).
    split; intros E; rewrite E in R; cbn [negb] in R.
    + unfold POST. rewrite handle_of_route, R. reflexivity.
    + rewrite bind_ret in R.
      rewrite (@POST_of_route rt env _ _ R).
      match type of R with
      | _ = ret ?r =>
          destruct (@serve_calls_head rt r
                      (adapterOfProvider (Str (Dialog.provider model))))
            as [rest Hrest]; [| apply Ad |]
      end.
      * cbn [apiConfig key]. unfold orElse. now rewrite E.
      * assert (Ke : getenv env "OPENROUTER_API_KEY" ||| Str (js "")
                     = getenv env "OPENROUTER_API_KEY")
          by (unfold orElse; now rewrite E).
        exists rest. rewrite Hrest. cbn [apiConfig key domain]. now rewrite Ke.
Qed.

End Stored.

(* ------------------------------------------------------------------ *)
(** ** The properties of the dialog at sample forms *)

(** X19 at the sample form: with the keyless model selected the save is
    refused, with the free model selected it goes through. *)
Lemma handleSave_refuses_or_stores_witness :
  snd (Dialog.handleSave true (Forms.selecting "mine")) = []
  /\ Dialog.error (fst (Dialog.handleSave true (Forms.selecting "mine")))
     = Some (js "anthropic API Key 是必填项")
  /\ exists config,
      snd (Dialog.handleSave true (Forms.selecting "deepseek-free"))
      = [Dialog.UpdateConfig config; Dialog.OnSave; Dialog.CloseLater].
Proof.
  destruct (@handleSave_refuses_or_stores true (Forms.selecting "mine")) as [R _].
  destruct R as (model & Sel & E).
  { exists Forms.keylessModel. repeat split; vm_compute; reflexivity. }
  assert (Hm : model = Forms.keylessModel).
  { vm_compute in Sel. injection Sel as <-. vm_compute. reflexivity. }
  subst model.
  destruct (@handleSave_refuses_or_stores true (Forms.selecting "deepseek-free"))
    as [_ S].
  destruct S as (config & E' & _).
  { intros (model & Sel' & K & F). vm_compute in Sel'. injection Sel' as <-.
    vm_compute in F. discriminate F. }
  split; [now rewrite E |]. split; [rewrite E; vm_compute; reflexivity |].
  exists config. exact E'.
Defined.

(** X20 at the sample form with the free model selected: what is stored
    has the placeholder as the key of that model. *)
Lemma handleSave_stores_keyed_witness :
  let stored :=
    Dialog.mkConfigSettings (js "deepseek-free") (js "Be brief.")
      (map Dialog.withPlaceholder Forms.models) in
  In (Dialog.UpdateConfig stored)
     (snd (Dialog.handleSave true (Forms.selecting "deepseek-free")))
  /\ Dialog.selectedHasKey stored.
Proof.
  cbv zeta.
  assert (H : In (Dialog.UpdateConfig
                    (Dialog.mkConfigSettings (js "deepseek-free") (js "Be brief.")
                       (map Dialog.withPlaceholder Forms.models)))
                 (snd (Dialog.handleSave true (Forms.selecting "deepseek-free"))))
    by (left; vm_compute; reflexivity).
  split; [exact H |].
  exact (proj2 (proj2 (proj2 (@handleSave_stores_keyed true _ _ H)))).
Defined.

(** X22 at the second row of the sample form. *)
Lemma edit_then_submit_witness :
  exists edited,
    Dialog.editModel 1 (Forms.selecting "mine") = Some edited
    /\ Dialog.localConfig (Dialog.submitModel edited)
       = Dialog.localConfig (Forms.selecting "mine").
Proof.
  destruct (Dialog.editModel 1 (Forms.selecting "mine")) as [edited|] eqn:E.
  - exists edited. split; [reflexivity |].
    exact (proj1 (@edit_then_submit 1 (Forms.selecting "mine") edited E)).
  - vm_compute in E. discriminate E.
Defined.

(** X23 at the sample form: deleting the selected second row leaves the
    first and the third, and the selection becomes ["gpt-4o"]. *)
Lemma deleteModel_spec_witness :
  exists deleted,
    Dialog.deleteModel 1 (Forms.selecting "mine") = Some deleted
    /\ Dialog.customModels (Dialog.localConfig deleted)
       = [Forms.freeModel; Forms.keyedModel]
    /\ Dialog.modelType (Dialog.localConfig deleted) = js "gpt-4o".
Proof.
  destruct (Dialog.deleteModel 1 (Forms.selecting "mine")) as [deleted|] eqn:E.
  - exists deleted. split; [reflexivity |].
    destruct (@deleteModel_spec 1 (Forms.selecting "mine") deleted E)
      as (model & N & L & _ & _ & T & _).
    assert (Hm : model = Forms.keylessModel).
    { vm_compute in N. injection N as <-. vm_compute. reflexivity. }
    subst model. split.
    + rewrite L. reflexivity.
    + rewrite T. vm_compute. reflexivity.
  - vm_compute in E. discriminate E.
Defined.

(** X24 at the sample form: the second row is opened, the first row is
    deleted, the form is submitted; the third model is gone and the second
    one is there twice. *)
Lemma stale_edit_index_witness :
  exists edited deleted,
    Dialog.editModel 1 (Forms.selecting "other") = Some edited
    /\ Dialog.deleteModel 0 edited = Some deleted
    /\ nth_error (Dialog.customModels (Dialog.localConfig (Dialog.submitModel deleted))) 0
       = Some Forms.keylessModel
    /\ nth_error (Dialog.customModels (Dialog.localConfig (Dialog.submitModel deleted))) 1
       = Some Forms.keylessModel
    /\ List.length (Dialog.customModels (Dialog.localConfig (Dialog.submitModel deleted)))
       = 2%nat.
Proof.
  destruct (Dialog.editModel 1 (Forms.selecting "other")) as [edited|] eqn:E;
    [| vm_compute in E; discriminate E].
  destruct (Dialog.deleteModel 0 edited) as [deleted|] eqn:D.
  - exists edited, deleted. split; [reflexivity |]. split; [exact D |].
    assert (La : (0 < 1)%nat) by lia.
    assert (Li : (2 < List.length
                         (Dialog.customModels
                            (Dialog.localConfig (Forms.selecting "other"))))%nat)
      by (vm_compute; lia).
    destruct (@stale_edit_index 1 0 (Forms.selecting "other") edited deleted
                E D La Li) as (A & B & _ & L).
    split; [exact A |]. split; [exact B |].
    change (List.length (Dialog.customModels
                           (Dialog.localConfig (Forms.selecting "other"))))
      with 3%nat in L.
    lia.
  - vm_compute in E. injection E as <-. vm_compute in D. discriminate D.
Defined.

(** X25 at the sample form with the keyed model selected: what is stored
    is served by the OpenAI factory with the key of that model. *)
Lemma stored_selection_is_served_witness :
  exists rest,
    snd (POST Sample.runtime []
           (Json (bodyOf Sample.userMessages
                    (Dialog.localConfig (Forms.selecting "other")))))
    = Create (mkProvider OpenAI (Str (js "sk-9")) (Str (js "https://api.openai.com")))
        :: rest.
Proof.
  assert (Hu : In (Dialog.UpdateConfig (Dialog.localConfig (Forms.selecting "other")))
                  (snd (Dialog.handleSave false (Forms.selecting "other"))))
    by (left; vm_compute; reflexivity).
  assert (Hs : Dialog.selectedModel (Dialog.localConfig (Forms.selecting "other"))
               = Some Forms.keyedModel) by (vm_compute; reflexivity).
  assert (Hn : Dialog.modelType (Dialog.localConfig (Forms.selecting "other")) <> [])
    by (vm_compute; discriminate).
  assert (Hm : nullish Sample.userMessages = false) by reflexivity.
  assert (Hp : Dialog.key (Dialog.apiConfig Forms.keyedModel)
               <> OPENROUTER_API_KEY_PLACEHOLDER) by (vm_compute; discriminate).
  pose proof (proj1 (@stored_selection_is_served Sample.runtime [] false
                       (Forms.selecting "other") _ _ Sample.userMessages
                       Hu Hs Hn Hm) Hp) as H.
  destruct H as [rest H]. exists rest. rewrite H. vm_compute. reflexivity.
Defined.
